(** * Access-control middleware of the library-management backend

  A shallow embedding of [src/middleware.ts] (bearer token, session rows)
  and of its cookie-based sibling, with the properties of the
  authentication / authorization pipeline proved about the embedding.

  Conventions
  - JavaScript strings are [string]; request paths are URL pathnames, which
    the URL parser keeps in the ASCII range, so one [ascii] is one code unit.
    A string from elsewhere (the [params.id] of a handler, a message) is the
    sequence of its UTF-8 bytes.
  - Instants ([Date] values) are milliseconds since the epoch, in [Z].
  - Numeric ids are [Z]; [toString] prints them in decimal.
  - [Headers] objects are finite maps from (lower-case) names to values. *)

From Stdlib Require Import ZArith String Ascii List Bool Lia.
From Stdlib Require Import DecimalString DecimalZ DecimalPos.
From stdpp Require Import base strings gmap list.

Local Open Scope string_scope.
Local Open Scope Z_scope.

(** ** JavaScript primitives used by the middleware *)

Module JS.

(** [s.startsWith(p)] *)
Definition startsWith (s p : string) : bool := String.prefix p s.

(** [s.split(sep)] for a one-character separator: never empty, one more
    piece than there are separators. *)
Fixpoint split (sep : ascii) (s : string) : list string :=
  match s with
  | EmptyString => [EmptyString]
  | String c s' =>
      if Ascii.eqb c sep then EmptyString :: split sep s'
      else match split sep s' with
           | piece :: pieces => String c piece :: pieces
           | [] => [String c EmptyString]
           end
  end.

(** [a.pop()]: the last element, [undefined] ([None]) on the empty array. *)
Definition pop {A} (a : list A) : option A := last a.

(** [a.includes(x)] on an array of strings. *)
Definition includes (a : list string) (x : string) : bool :=
  existsb (String.eqb x) a.

(** [a.some(f)] *)
Definition some {A} (f : A -> bool) (a : list A) : bool := existsb f a.

(** [n.toString()] for an integer [n] below 10^21 in absolute value, where
    no exponent is printed: every id that the database holds. *)
Definition toString (n : Z) : string :=
  NilZero.string_of_int (Z.to_int n).

(** Truthiness of an optional string: [undefined] and [""] are falsy. *)
Definition truthy_string (o : option string) : bool :=
  match o with
  | Some EmptyString | None => false
  | Some _ => true
  end.

(** Truthiness of an optional number: [null] and [0] are falsy. *)
Definition truthy_number (o : option Z) : bool :=
  match o with
  | Some n => negb (n =? 0)
  | None => false
  end.

(** Does the character occur in the string? *)
Fixpoint occurs (c : ascii) (s : string) : bool :=
  match s with
  | EmptyString => false
  | String d s' => Ascii.eqb d c || occurs c s'
  end.

(** Do all characters of the string satisfy the test? *)
Fixpoint all_chars (P : ascii -> bool) (s : string) : bool :=
  match s with
  | EmptyString => true
  | String c s' => P c && all_chars P s'
  end.

Definition digit_or_minus (c : ascii) : bool :=
  existsb (Ascii.eqb c)
    ["0"; "1"; "2"; "3"; "4"; "5"; "6"; "7"; "8"; "9"; "-"]%char.

End JS.

(** ** Regular expressions

  The fragment of the RegExp syntax that the permission table uses:
  literal characters, [.], [*], [|], grouping, and a leading [^]. *)

Module RegExp.

Inductive regex : Type :=
| Void                          (* matches nothing *)
| Eps                           (* the empty pattern *)
| Chr (c : ascii)               (* a literal character, e.g. [\/] *)
| Dot                           (* [.] *)
| Seq (r1 r2 : regex)
| Alt (r1 r2 : regex)           (* [r1|r2] *)
| Star (r : regex).             (* [r*] *)

(** Line terminators, which [.] does not match without the [s] flag. *)
Definition line_terminator (c : ascii) : bool :=
  Ascii.eqb c "010"%char || Ascii.eqb c "013"%char.

(** A run of literal characters. *)
Fixpoint lit (s : string) : regex :=
  match s with
  | EmptyString => Eps
  | String c s' => Seq (Chr c) (lit s')
  end.

(** What a pattern matches, declaratively. *)
Inductive matches : regex -> string -> Prop :=
| m_eps : matches Eps EmptyString
| m_chr c : matches (Chr c) (String c EmptyString)
| m_dot c : line_terminator c = false -> matches Dot (String c EmptyString)
| m_seq r1 r2 s1 s2 :
    matches r1 s1 -> matches r2 s2 -> matches (Seq r1 r2) (s1 ++ s2)
| m_alt_l r1 r2 s : matches r1 s -> matches (Alt r1 r2) s
| m_alt_r r1 r2 s : matches r2 s -> matches (Alt r1 r2) s
| m_star_nil r : matches (Star r) EmptyString
| m_star_cons r s1 s2 :
    matches r s1 -> matches (Star r) s2 -> matches (Star r) (s1 ++ s2).

(** The matcher: Brzozowski derivatives. *)
Fixpoint nullable (r : regex) : bool :=
  match r with
  | Void | Chr _ | Dot => false
  | Eps | Star _ => true
  | Seq r1 r2 => nullable r1 && nullable r2
  | Alt r1 r2 => nullable r1 || nullable r2
  end.

Fixpoint deriv (c : ascii) (r : regex) : regex :=
  match r with
  | Void | Eps => Void
  | Chr c' => if Ascii.eqb c c' then Eps else Void
  | Dot => if line_terminator c then Void else Eps
  | Seq r1 r2 =>
      if nullable r1 then Alt (Seq (deriv c r1) r2) (deriv c r2)
      else Seq (deriv c r1) r2
  | Alt r1 r2 => Alt (deriv c r1) (deriv c r2)
  | Star r1 => Seq (deriv c r1) (Star r1)
  end.

(** Does [r] match some prefix of [s]? *)
Fixpoint prefix_match (r : regex) (s : string) : bool :=
  nullable r ||
  match s with
  | EmptyString => false
  | String c s' => prefix_match (deriv c r) s'
  end.

(** Does [r] match somewhere in [s], starting at any index? *)
Fixpoint search (r : regex) (s : string) : bool :=
  prefix_match r s ||
  match s with
  | EmptyString => false
  | String _ s' => search r s'
  end.

(** A regular expression literal without flags: [/^body/] when [anchored],
    [/body/] otherwise. *)
Record t : Type := mk { anchored : bool; body : regex }.

(** [re.test(s)]: without the [g] and [y] flags the search starts at index
    0, and [^] holds at index 0 only. *)
Definition test (re : t) (s : string) : bool :=
  if anchored re then prefix_match (body re) s else search (body re) s.

End RegExp.

(** ** Dates

    The part of the ECMAScript date algorithms behind
    [d.setDate(d.getDate() + 30)].  Time values are milliseconds since the
    epoch; the host's time zone is a parameter ([LocalTZA]).  [TimeClip] is
    left out: the instants at hand are within the representable range. *)

Module JSDate.

Definition msPerDay : Z := 86400000.

Definition Day (t : Z) : Z := t / msPerDay.
Definition TimeWithinDay (t : Z) : Z := t mod msPerDay.

Definition DaysInYear (y : Z) : Z :=
  if negb (y mod 4 =? 0) then 365
  else if negb (y mod 100 =? 0) then 366
  else if negb (y mod 400 =? 0) then 365
  else 366.

Definition DayFromYear (y : Z) : Z :=
  365 * (y - 1970) + (y - 1969) / 4 - (y - 1901) / 100 + (y - 1601) / 400.

Definition TimeFromYear (y : Z) : Z := msPerDay * DayFromYear y.

(** The largest [y] with [TimeFromYear y <= t]: an estimate from the mean
    length of a Gregorian year, corrected by at most one. *)
Definition YearFromTime (t : Z) : Z :=
  let y := 1970 + (Day t * 400) / 146097 in
  if Day t <? DayFromYear y then y - 1
  else if DayFromYear (y + 1) <=? Day t then y + 1
  else y.

Definition InLeapYear (t : Z) : Z :=
  if DaysInYear (YearFromTime t) =? 366 then 1 else 0.

Definition DayWithinYear (t : Z) : Z := Day t - DayFromYear (YearFromTime t).

Definition MonthFromTime (t : Z) : Z :=
  let d := DayWithinYear t in
  let leap := InLeapYear t in
  if d <? 31 then 0
  else if d <? 59 + leap then 1
  else if d <? 90 + leap then 2
  else if d <? 120 + leap then 3
  else if d <? 151 + leap then 4
  else if d <? 181 + leap then 5
  else if d <? 212 + leap then 6
  else if d <? 243 + leap then 7
  else if d <? 273 + leap then 8
  else if d <? 304 + leap then 9
  else if d <? 334 + leap then 10
  else 11.

Definition DateFromTime (t : Z) : Z :=
  let d := DayWithinYear t in
  let leap := InLeapYear t in
  match MonthFromTime t with
  | 0 => d + 1
  | 1 => d - 30
  | 2 => d - 58 - leap
  | 3 => d - 89 - leap
  | 4 => d - 119 - leap
  | 5 => d - 150 - leap
  | 6 => d - 180 - leap
  | 7 => d - 211 - leap
  | 8 => d - 242 - leap
  | 9 => d - 272 - leap
  | 10 => d - 303 - leap
  | _ => d - 333 - leap
  end.

(** Day number of the first day of month [m] (0 to 11) of year [y]. *)
Definition FirstOfMonth (y m : Z) : Z :=
  let leap := if DaysInYear y =? 366 then 1 else 0 in
  DayFromYear y +
  match m with
  | 0 => 0
  | 1 => 31
  | 2 => 59 + leap
  | 3 => 90 + leap
  | 4 => 120 + leap
  | 5 => 151 + leap
  | 6 => 181 + leap
  | 7 => 212 + leap
  | 8 => 243 + leap
  | 9 => 273 + leap
  | 10 => 304 + leap
  | _ => 334 + leap
  end.

Definition MakeDay (year month date : Z) : Z :=
  let ym := year + month / 12 in
  let mn := month mod 12 in
  FirstOfMonth ym mn + date - 1.

Definition MakeDate (day time : Z) : Z := day * msPerDay + time.

(** [LocalTZA t isUTC]: the offset of local time, in milliseconds, at the
    UTC instant [t] ([isUTC = true]) or at the local reading [t]. *)
Definition TimeZone : Type := Z -> bool -> Z.

Definition LocalTime (tz : TimeZone) (t : Z) : Z := t + tz t true.
Definition UTC (tz : TimeZone) (t : Z) : Z := t - tz t false.

(** A zone without daylight-saving changes, such as UTC itself. *)
Definition fixed_offset (tz : TimeZone) : Prop :=
  exists off, forall t b, tz t b = off.

Definition utc_zone : TimeZone := fun _ _ => 0.

(** [d.getDate()] *)
Definition getDate (tz : TimeZone) (t : Z) : Z := DateFromTime (LocalTime tz t).

(** [d.setDate(dt)]: the new time value of [d]. *)
Definition setDate (tz : TimeZone) (t dt : Z) : Z :=
  let lt := LocalTime tz t in
  let newDate :=
    MakeDate (MakeDay (YearFromTime lt) (MonthFromTime lt) dt) (TimeWithinDay lt) in
  UTC tz newDate.

End JSDate.

(** ** Roles and permission rules *)

Inductive UserRole : Type := ADMIN | MANAGER | CLIENT | DELIVERY.

#[global] Instance UserRole_eq_dec : EqDecision UserRole.
Proof. solve_decision. Defined.

(** The role literal, as stored in [x-user-role]. *)
Definition role_name (r : UserRole) : string :=
  match r with
  | ADMIN => "ADMIN"
  | MANAGER => "MANAGER"
  | CLIENT => "CLIENT"
  | DELIVERY => "DELIVERY"
  end.

(** [path: string | RegExp] *)
Inductive PathPattern : Type :=
| PathString (s : string)
| PathRegExp (re : RegExp.t).

(** [{ path: string | RegExp; methods?: string[] }] *)
Record PermissionRule : Type :=
  { rule_path : PathPattern; rule_methods : option (list string) }.

(** [/^prefix.*/] *)
Definition under (prefix : string) : RegExp.t :=
  RegExp.mk true (RegExp.Seq (RegExp.lit prefix) (RegExp.Star RegExp.Dot)).

(** [/^\/api\/(loans|reservations|penalties)\/.*/] *)
Definition loans_reservations_penalties : RegExp.t :=
  RegExp.mk true
    (RegExp.Seq (RegExp.lit "/api/")
       (RegExp.Seq
          (RegExp.Alt (RegExp.lit "loans")
             (RegExp.Alt (RegExp.lit "reservations") (RegExp.lit "penalties")))
          (RegExp.Seq (RegExp.Chr "/") (RegExp.Star RegExp.Dot)))).

(** ** Requests, responses and the session table *)

(** [Headers]: names are kept in lower case by the class itself. *)
Abbreviation Headers := (gmap string string).

Record Request : Type :=
  { pathname : string;          (* [request.nextUrl.pathname] *)
    method : string;            (* [request.method] *)
    headers : Headers }.        (* [request.headers] *)

Inductive Response : Type :=
| Next (forwarded : option Headers)
    (* [NextResponse.next()] and [NextResponse.next({ request: { headers } })] *)
| Json (status : Z) (error : string) (message : option string).
    (* [new NextResponse(JSON.stringify({ error, message }), { status })] *)

(** The [select]ed columns of the user who owns a session. *)
Record User : Type :=
  { user_id : Z; user_role : UserRole; user_libraryId : option Z }.

(** A row of the [Session] table, joined with its user. *)
Record Session : Type :=
  { session_id : string; session_expires : Z; session_user : User }.

Definition with_expires (e : Z) (s : Session) : Session :=
  {| session_id := session_id s; session_expires := e;
     session_user := session_user s |}.

(** How the store treats a write. *)
Inductive WriteFault : Type :=
| WriteOk       (* the write is applied and acknowledged *)
| WriteRefused  (* the call rejects and nothing is written *)
| AckLost.      (* the row is written but the call still rejects *)

#[global] Instance WriteFault_eq_dec : EqDecision WriteFault.
Proof. solve_decision. Defined.

Inductive Event : Type :=
| EvFindUnique (sessionToken : string)
| EvUpdate (id : string) (expires : Z)
| EvSetHeader (name value : string)
| EvHasPermission (role : UserRole) (path method : string)
| EvConsoleError.

(** Everything outside the middleware that it reads or changes. *)
Record World : Type :=
  { sessions : gmap string Session;  (* the table, by its unique [sessionToken] *)
    find_fails : bool;               (* [findUnique] rejects *)
    update_fault : WriteFault;
    clock : nat -> Z;                (* successive readings of the system clock *)
    reads : nat;                     (* readings taken so far *)
    zone : JSDate.TimeZone;
    trace : list Event }.            (* what has been done, oldest first *)

Definition set_sessions (m : gmap string Session) (w : World) : World :=
  {| sessions := m; find_fails := find_fails w; update_fault := update_fault w;
     clock := clock w; reads := reads w; zone := zone w; trace := trace w |}.

Definition set_reads (n : nat) (w : World) : World :=
  {| sessions := sessions w; find_fails := find_fails w;
     update_fault := update_fault w;
     clock := clock w; reads := n; zone := zone w; trace := trace w |}.

Definition logs (es : list Event) (w : World) : World :=
  {| sessions := sessions w; find_fails := find_fails w;
     update_fault := update_fault w;
     clock := clock w; reads := reads w; zone := zone w;
     trace := trace w ++ es |}.

Definition log (e : Event) : World -> World := logs [e].

(** ** Computations: state and exceptions *)

Inductive Outcome (A : Type) : Type :=
| Return (a : A)
| Throw (e : string).
Arguments Return {A} a.
Arguments Throw {A} e.

Definition M (A : Type) : Type := World -> Outcome A * World.

Definition ret {A} (a : A) : M A := fun w => (Return a, w).

Definition throw {A} (e : string) : M A := fun w => (Throw e, w).

Definition bind {A B} (m : M A) (k : A -> M B) : M B :=
  fun w =>
    match m w with
    | (Return a, w') => k a w'
    | (Throw e, w') => (Throw e, w')
    end.

(** [try { body } catch (error) { handler }] *)
Definition try_catch {A} (body : M A) (handler : string -> M A) : M A :=
  fun w =>
    match body w with
    | (Return a, w') => (Return a, w')
    | (Throw e, w') => handler e w'
    end.

Notation "'let*' x ':=' m 'in' k" := (bind m (fun x => k))
  (at level 10, x name, m at level 200, k at level 200, only parsing).

Definition emit (e : Event) : M unit := fun w => (Return tt, log e w).

(** [new Date()] and [Date.now()]: the next reading of the clock. *)
Definition Date_now : M Z :=
  fun w => (Return (clock w (reads w)), set_reads (S (reads w)) w).

Definition local_zone : M JSDate.TimeZone := fun w => (Return (zone w), w).

(** [prisma.session.findUnique({ where: { sessionToken }, include: { user } })] *)
Definition findUnique (sessionToken : string) : M (option Session) :=
  let* _ := emit (EvFindUnique sessionToken) in
  fun w =>
    if find_fails w then (Throw "PrismaClientKnownRequestError", w)
    else (Return (sessions w !! sessionToken), w).

Definition has_id (id : string) (s : Session) : bool := String.eqb (session_id s) id.

(** The rows after [UPDATE Session SET expires = e WHERE id = id]. *)
Definition write_expires (id : string) (e : Z) (m : gmap string Session)
  : gmap string Session :=
  (fun s => if has_id id s then with_expires e s else s) <$> m.

Definition row_exists (id : string) (m : gmap string Session) : bool :=
  existsb (fun kv => has_id id (snd kv)) (map_to_list m).

(** [prisma.session.update({ where: { id }, data: { expires } })]: rejects
    when no row has this id. *)
Definition update (id : string) (expires : Z) : M unit :=
  let* _ := emit (EvUpdate id expires) in
  fun w =>
    match update_fault w with
    | WriteOk =>
        if row_exists id (sessions w)
        then (Return tt, set_sessions (write_expires id expires (sessions w)) w)
        else (Throw "RecordNotFound", w)
    | WriteRefused => (Throw "PrismaClientKnownRequestError", w)
    | AckLost =>
        (Throw "PrismaClientUnknownRequestError",
         set_sessions (write_expires id expires (sessions w)) w)
    end.

(** [h.set(name, value)] on the local copy of the headers. *)
Definition set (name value : string) (h : Headers) : M Headers :=
  let* _ := emit (EvSetHeader name value) in ret (<[name := value]> h).

(** [value === s] for a [value] that may be [undefined]. *)
Definition strict_eq (value : option string) (s : string) : bool :=
  match value with
  | Some v => String.eqb v s
  | None => false
  end.

Definition role_eqb (a b : UserRole) : bool := bool_decide (a = b).

(** ** The middleware of [src/middleware.ts]: bearer token and session rows *)

Module Bearer.

Definition publicRoutes : list string :=
  [ "/api/auth/login";
    "/api/auth/register";
    "/api/auth/signin";
    "/api/auth/callback";
    "/api/auth/providers";
    "/api/auth/session";
    "/api/auth/csrf";
    "/api/auth/debug" ].

(** [publicRoutes.some(route => path.startsWith(route))] *)
Definition is_public (path : string) : bool :=
  JS.some (fun route => JS.startsWith path route) publicRoutes.

(** [permissions: Record<UserRole, ...>]: one rule list for each role. *)
Definition permissions (role : UserRole) : option (list PermissionRule) :=
  match role with
  | ADMIN => Some
      [ {| rule_path := PathRegExp (under "/api/");
           rule_methods := Some ["GET"; "POST"; "PATCH"; "DELETE"] |} ]
  | MANAGER => Some
      [ {| rule_path := PathRegExp (under "/api/libraries/");
           rule_methods := Some ["GET"; "PATCH"] |};
        {| rule_path := PathString "/api/users";
           rule_methods := Some ["GET"] |};
        {| rule_path := PathRegExp (under "/api/books/");
           rule_methods := Some ["GET"; "POST"; "PATCH"; "DELETE"] |};
        {| rule_path := PathRegExp loans_reservations_penalties;
           rule_methods := Some ["GET"; "POST"; "PATCH"] |} ]
  | CLIENT => Some
      [ {| rule_path := PathString "/api/users/me";
           rule_methods := Some ["GET"; "PATCH"] |};
        {| rule_path := PathString "/api/books";
           rule_methods := Some ["GET"] |};
        {| rule_path := PathString "/api/reservations";
           rule_methods := Some ["GET"; "POST"; "DELETE"] |};
        {| rule_path := PathString "/api/feedbacks";
           rule_methods := Some ["GET"; "POST"] |} ]
  | DELIVERY => Some
      [ {| rule_path := PathString "/api/sales";
           rule_methods := Some ["GET"; "PATCH"] |};
        {| rule_path := PathString "/api/users/me";
           rule_methods := Some ["GET"] |} ]
  end.

(** [permissions[role]?.some(rule => pathMatches && methodMatches) ?? false] *)
Definition hasPermission (role : UserRole) (path method : string) : bool :=
  match permissions role with
  | Some rules =>
      JS.some
        (fun rule =>
           let pathMatches :=
             match rule_path rule with
             | PathString s => String.eqb path s
             | PathRegExp re => RegExp.test re path
             end in
           let methodMatches :=
             match rule_methods rule with
             | None => true
             | Some ms => JS.includes ms method
             end in
           pathMatches && methodMatches)
        rules
  | None => false
  end.

(** [authHeader?.split(' ')[1]] *)
Definition bearer_token (request : Request) : option string :=
  match headers request !! "authorization" with
  | Some authHeader => JS.split " " authHeader !! 1%nat
  | None => None
  end.

Definition oneDay : Z := 86400000.

(** Lines 64-73: the sliding renewal of the session. *)
Definition refresh (session : Session) : M unit :=
  let* now := Date_now in
  if session_expires session - now <? oneDay then
    let* d := Date_now in
    let* tz := local_zone in
    let newExpires := JSDate.setDate tz d (JSDate.getDate tz d + 30) in
    update (session_id session) newExpires
  else ret tt.

(** Lines 75-81: the identity headers. *)
Definition attach (request : Request) (user : User) : M Headers :=
  let* requestHeaders := ret (headers request) in
  let* requestHeaders := set "x-user-id" (JS.toString (user_id user)) requestHeaders in
  let* requestHeaders := set "x-user-role" (role_name (user_role user)) requestHeaders in
  match user_libraryId user with
  | Some libraryId =>
      if libraryId =? 0 then ret requestHeaders
      else set "x-user-library-id" (JS.toString libraryId) requestHeaders
  | None => ret requestHeaders
  end.

(** [path.split('/').pop()] *)
Definition userIdInPath (path : string) : option string :=
  JS.pop (JS.split "/" path).

Definition isSelfAccess (path : string) (user : User) : bool :=
  strict_eq (userIdInPath path) "me"
  || strict_eq (userIdInPath path) (JS.toString (user_id user))
  || role_eqb (user_role user) ADMIN.

Definition forbidden_self : Response :=
  Json 403 "Accès refusé"
    (Some "Vous ne pouvez accéder qu'à vos propres données").

Definition forbidden_role : Response :=
  Json 403 "Permissions insuffisantes"
    (Some "Votre rôle ne vous permet pas d'effectuer cette action").

Definition unauthenticated : Response := Json 401 "Authentification requise" None.
Definition session_invalid : Response := Json 401 "Session expirée ou invalide" None.
Definition failure : Response := Json 500 "Erreur d'authentification" None.

(** Lines 83-106: the rule for [/api/users/...]; [inl] is an early return. *)
Definition users_route (path : string) (user : User) (requestHeaders : Headers)
  : M (Response + Headers) :=
  if JS.startsWith path "/api/users/" then
    if negb (isSelfAccess path user) then ret (inl forbidden_self)
    else if strict_eq (userIdInPath path) "me" then
      let* requestHeaders :=
        set "x-requested-user-id" (JS.toString (user_id user)) requestHeaders in
      ret (inr requestHeaders)
    else ret (inr requestHeaders)
  else ret (inr requestHeaders).

(** Lines 108-119: the permission table, then the forwarded request. *)
Definition authorize (path method : string) (user : User) (requestHeaders : Headers)
  : M Response :=
  let* _ := emit (EvHasPermission (user_role user) path method) in
  if negb (hasPermission (user_role user) path method) then ret forbidden_role
  else ret (Next (Some requestHeaders)).

(** Lines 75-119: what follows the renewal. *)
Definition proceed (request : Request) (user : User) : M Response :=
  let path := pathname request in
  let* requestHeaders := attach request user in
  let* checked := users_route path user requestHeaders in
  match checked with
  | inl response => ret response
  | inr requestHeaders => authorize path (method request) user requestHeaders
  end.

(** Lines 40-119: the body of the [try] block. *)
Definition authenticated (request : Request) (sessionToken : string) : M Response :=
  let* session := findUnique sessionToken in
  match session with
  | None => ret session_invalid
  | Some session =>
      let* now := Date_now in
      if session_expires session <? now then ret session_invalid
      else
        let user := session_user session in
        let* _ := refresh session in
        proceed request user
  end.

Definition middleware (request : Request) : M Response :=
  let path := pathname request in
  if is_public path then ret (Next None)
  else
    match bearer_token request with
    | None | Some EmptyString => ret unauthenticated
    | Some sessionToken =>
        try_catch (authenticated request sessionToken)
          (fun error => let* _ := emit EvConsoleError in ret failure)
    end.

(** *** Vocabulary for the statements below *)

(** The three readings of the clock that one request can take. *)
Definition t_check (w : World) : Z := clock w (reads w).         (* line 55 *)
Definition t_renew (w : World) : Z := clock w (S (reads w)).     (* line 65 *)
Definition t_new (w : World) : Z := clock w (S (S (reads w))).   (* line 66 *)

Definition expired (w : World) (session : Session) : bool :=
  session_expires session <? t_check w.

(** Less than a day is left: the session is renewed. *)
Definition due (w : World) (session : Session) : bool :=
  session_expires session - t_renew w <? oneDay.

(** The expiry that a renewal writes. *)
Definition newExpires (w : World) : Z :=
  JSDate.setDate (zone w) (t_new w) (JSDate.getDate (zone w) (t_new w) + 30).

(** The request is not for a public route and carries the token of a stored
    session, which the store hands out. *)
Definition presents (request : Request) (w : World)
    (sessionToken : string) (session : Session) : Prop :=
  is_public (pathname request) = false /\
  bearer_token request = Some sessionToken /\
  JS.truthy_string (Some sessionToken) = true /\
  find_fails w = false /\
  sessions w !! sessionToken = Some session.

(** The renewal, if one is due, is written and acknowledged. *)
Definition renewal_succeeds (w : World) (session : Session) : bool :=
  negb (due w session)
  || match update_fault w with WriteOk => true | _ => false end.

(** The caller is authenticated: steps 1 to 4 of the pipeline are passed. *)
Definition authenticates (request : Request) (w : World)
    (sessionToken : string) (session : Session) : Prop :=
  presents request w sessionToken session /\
  expired w session = false /\
  renewal_succeeds w session = true.

Definition is_lookup (e : Event) : bool :=
  match e with EvHasPermission _ _ _ => true | _ => false end.

Definition is_update (e : Event) : bool :=
  match e with EvUpdate _ _ => true | _ => false end.

Definition is_set_header (e : Event) : bool :=
  match e with EvSetHeader _ _ => true | _ => false end.

(** The events of one kind in a trace. *)
Definition lookups (t : list Event) : list Event := List.filter is_lookup t.
Definition updates (t : list Event) : list Event := List.filter is_update t.
Definition header_sets (t : list Event) : list Event := List.filter is_set_header t.

Definition status (r : Response) : Z :=
  match r with
  | Next _ => 200
  | Json status _ _ => status
  end.

(** The stages read as pure functions: the headers and events of [attach]. *)
Definition identity (request : Request) (user : User) : Headers :=
  let h := <["x-user-role" := role_name (user_role user)]>
             (<["x-user-id" := JS.toString (user_id user)]> (headers request)) in
  match user_libraryId user with
  | Some libraryId =>
      if libraryId =? 0 then h
      else <["x-user-library-id" := JS.toString libraryId]> h
  | None => h
  end.

Definition identity_events (user : User) : list Event :=
  [ EvSetHeader "x-user-id" (JS.toString (user_id user));
    EvSetHeader "x-user-role" (role_name (user_role user)) ]
  ++ match user_libraryId user with
     | Some libraryId =>
         if libraryId =? 0 then []
         else [EvSetHeader "x-user-library-id" (JS.toString libraryId)]
     | None => []
     end.

(** The request is for somebody else's [/api/users/...]. *)
Definition self_denied (path : string) (user : User) : bool :=
  JS.startsWith path "/api/users/" && negb (isSelfAccess path user).

(** The request is for [/api/users/.../me]. *)
Definition names_me (path : string) : bool :=
  JS.startsWith path "/api/users/" && strict_eq (userIdInPath path) "me".

Definition forwarded_headers (request : Request) (user : User) : Headers :=
  if names_me (pathname request)
  then <["x-requested-user-id" := JS.toString (user_id user)]> (identity request user)
  else identity request user.

Definition me_events (path : string) (user : User) : list Event :=
  if names_me path
  then [EvSetHeader "x-requested-user-id" (JS.toString (user_id user))]
  else [].

(** The world in which the session of a token has been removed. *)
Definition forget (sessionToken : string) (w : World) : World :=
  set_sessions (delete sessionToken (sessions w)) w.

(** What [proceed] answers and what it does, read off the request. *)
Definition verdict (request : Request) (user : User) : Response :=
  if self_denied (pathname request) user then forbidden_self
  else if hasPermission (user_role user) (pathname request) (method request)
       then Next (Some (forwarded_headers request user))
       else forbidden_role.

Definition proceed_events (request : Request) (user : User) : list Event :=
  identity_events user
  ++ if self_denied (pathname request) user then []
     else me_events (pathname request) user
          ++ [EvHasPermission (user_role user) (pathname request) (method request)].

End Bearer.

(** ** The cookie-based variant: its public routes and permission table *)

Module Cookie.

Definition publicRoutes : list string :=
  [ "/api/auth/login"; "/api/auth/register" ].

(** [publicRoutes.includes(path)] *)
Definition is_public (path : string) : bool := JS.includes publicRoutes path.

Definition permissions (role : UserRole) : option (list PermissionRule) :=
  match role with
  | ADMIN => Some
      [ {| rule_path := PathRegExp (under "/api/");
           rule_methods := Some ["GET"; "POST"; "PATCH"; "DELETE"] |} ]
  | MANAGER => Some
      [ {| rule_path := PathRegExp (under "/api/libraries/");
           rule_methods := Some ["GET"; "PATCH"] |};
        {| rule_path := PathString "/api/users";
           rule_methods := Some ["GET"] |};
        {| rule_path := PathRegExp (under "/api/books/");
           rule_methods := Some ["GET"; "POST"; "PATCH"; "DELETE"] |};
        {| rule_path := PathRegExp loans_reservations_penalties;
           rule_methods := Some ["GET"; "POST"; "PATCH"] |} ]
  | CLIENT => Some
      [ {| rule_path := PathString "/api/users/me";
           rule_methods := Some ["GET"; "PATCH"] |};
        {| rule_path := PathString "/api/books";
           rule_methods := Some ["GET"] |};
        {| rule_path := PathString "/api/reservations";
           rule_methods := Some ["GET"; "POST"; "DELETE"] |};
        {| rule_path := PathString "/api/feedbacks";
           rule_methods := Some ["GET"; "POST"] |} ]
  | DELIVERY => Some
      [ {| rule_path := PathString "/api/sales";
           rule_methods := Some ["GET"; "PATCH"] |};
        {| rule_path := PathString "/api/users/me";
           rule_methods := Some ["GET"] |} ]
  end.

Definition hasPermission (role : UserRole) (path method : string) : bool :=
  match permissions role with
  | Some rules =>
      JS.some
        (fun rule =>
           let pathMatches :=
             match rule_path rule with
             | PathString s => String.eqb path s
             | PathRegExp re => RegExp.test re path
             end in
           let methodMatches :=
             match rule_methods rule with
             | None => true
             | Some ms => JS.includes ms method
             end in
           pathMatches && methodMatches)
        rules
  | None => false
  end.

End Cookie.

(** ** The permission table as the specification prints it *)

Module Spec.

Inductive PathRule : Type :=
| Exact (p : string)                (* [/api/users] (exact) *)
| Under (prefixes : list string).   (* [/api/books/*]: anything below a prefix *)

Definition Permission_Table : list (UserRole * PathRule * list string) :=
  [ (ADMIN, Under ["/api/"], ["GET"; "POST"; "PATCH"; "DELETE"]);
    (MANAGER, Under ["/api/libraries/"], ["GET"; "PATCH"]);
    (MANAGER, Exact "/api/users", ["GET"]);
    (MANAGER, Under ["/api/books/"], ["GET"; "POST"; "PATCH"; "DELETE"]);
    (MANAGER, Under ["/api/loans/"; "/api/reservations/"; "/api/penalties/"],
              ["GET"; "POST"; "PATCH"]);
    (CLIENT, Exact "/api/users/me", ["GET"; "PATCH"]);
    (CLIENT, Exact "/api/books", ["GET"]);
    (CLIENT, Exact "/api/reservations", ["GET"; "POST"; "DELETE"]);
    (CLIENT, Exact "/api/feedbacks", ["GET"; "POST"]);
    (DELIVERY, Exact "/api/sales", ["GET"; "PATCH"]);
    (DELIVERY, Exact "/api/users/me", ["GET"]) ].

Definition path_covered (rule : PathRule) (path : string) : bool :=
  match rule with
  | Exact p => String.eqb path p
  | Under prefixes => existsb (fun prefix => String.prefix prefix path) prefixes
  end.

(** [(path, method)] is present in the table for [role]. *)
Definition covered (role : UserRole) (path method : string) : bool :=
  existsb
    (fun '(r, rule, methods) =>
       role_eqb r role && path_covered rule path
       && existsb (String.eqb method) methods)
    Permission_Table.

End Spec.

(** ** Concrete requests and worlds *)

Module Scenario.

Definition now : Z := 1800000000000.
Definition hour : Z := 3600000.

Definition client7 : User :=
  {| user_id := 7; user_role := CLIENT; user_libraryId := None |}.

Definition manager3 : User :=
  {| user_id := 3; user_role := MANAGER; user_libraryId := Some 2 |}.

(** A session of [user] with [left] milliseconds to go. *)
Definition session_of (user : User) (left : Z) : Session :=
  {| session_id := "s1"; session_expires := now + left; session_user := user |}.

(** One row under the token [tok]; the clock advances by a millisecond per
    reading; the host runs in UTC. *)
Definition world (session : Session) (fault : WriteFault) : World :=
  {| sessions := {[ "tok" := session ]};
     find_fails := false;
     update_fault := fault;
     clock := fun n => now + Z.of_nat n;
     reads := 0;
     zone := JSDate.utc_zone;
     trace := [] |}.

Definition request (path method : string) : Request :=
  {| pathname := path; method := method;
     headers := {[ "authorization" := "Bearer tok" ]} |}.

End Scenario.

(** ** Every way one request can go *)

Module Outcomes.
Import Bearer.

(** The world after a request: the rows [m], [n] more readings of the clock,
    the events [es]. *)
Definition evolve (m : gmap string Session) (n : nat) (es : list Event) (w : World)
  : World :=
  {| sessions := m; find_fails := find_fails w; update_fault := update_fault w;
     clock := clock w; reads := n + reads w; zone := zone w;
     trace := trace w ++ es |}.

(** The answer and the resulting world, branch by branch. *)
Inductive answers (request : Request) (w : World) : Response -> World -> Prop :=
| public_route :
    is_public (pathname request) = true ->
    answers request w (Next None) w
| no_token :
    is_public (pathname request) = false ->
    JS.truthy_string (bearer_token request) = false ->
    answers request w unauthenticated w
| store_down sessionToken :
    is_public (pathname request) = false ->
    bearer_token request = Some sessionToken ->
    JS.truthy_string (Some sessionToken) = true ->
    find_fails w = true ->
    answers request w failure
      (evolve (sessions w) 0 [EvFindUnique sessionToken; EvConsoleError] w)
| no_session sessionToken :
    is_public (pathname request) = false ->
    bearer_token request = Some sessionToken ->
    JS.truthy_string (Some sessionToken) = true ->
    find_fails w = false ->
    sessions w !! sessionToken = None ->
    answers request w session_invalid
      (evolve (sessions w) 0 [EvFindUnique sessionToken] w)
| session_expired sessionToken session :
    presents request w sessionToken session ->
    expired w session = true ->
    answers request w session_invalid
      (evolve (sessions w) 1 [EvFindUnique sessionToken] w)
| session_fresh sessionToken session :
    presents request w sessionToken session ->
    expired w session = false ->
    due w session = false ->
    answers request w (verdict request (session_user session))
      (evolve (sessions w) 2
         (EvFindUnique sessionToken
          :: proceed_events request (session_user session)) w)
| session_renewed sessionToken session :
    presents request w sessionToken session ->
    expired w session = false ->
    due w session = true ->
    update_fault w = WriteOk ->
    answers request w (verdict request (session_user session))
      (evolve (write_expires (session_id session) (newExpires w) (sessions w)) 3
         (EvFindUnique sessionToken
          :: EvUpdate (session_id session) (newExpires w)
          :: proceed_events request (session_user session)) w)
| renewal_failed sessionToken session :
    presents request w sessionToken session ->
    expired w session = false ->
    due w session = true ->
    update_fault w <> WriteOk ->
    answers request w failure
      (evolve
         (match update_fault w with
          | AckLost =>
              write_expires (session_id session) (newExpires w) (sessions w)
          | _ => sessions w
          end) 3
         [EvFindUnique sessionToken;
          EvUpdate (session_id session) (newExpires w);
          EvConsoleError] w).

Definition is_find (e : Event) : bool :=
  match e with EvFindUnique _ => true | _ => false end.

(** The events of a request that reach the store. *)
Definition store_calls (t : list Event) : list Event :=
  List.filter (fun e => is_find e || is_update e) t.

(** The header names that the middleware may set. *)
Definition identity_names : list string :=
  ["x-user-id"; "x-user-role"; "x-user-library-id"; "x-requested-user-id"].

End Outcomes.

(** ** The cookie variant: the middleware itself

    [verifyToken] comes from [@/lib/auth], which is not part of the sources at
    hand: it is a parameter, free to read or change the world, to answer
    [null] and to throw. *)

Module CookieVariant.

Definition unauthenticated : Response := Json 401 "Authentification requise" None.
Definition token_invalid : Response := Json 401 "Token invalide" None.

Definition forbidden_self : Response :=
  Json 403 "Accès refusé"
    (Some "Vous ne pouvez accéder qu'à vos propres données").

Definition forbidden_role : Response :=
  Json 403 "Permissions insuffisantes"
    (Some "Votre rôle ne vous permet pas d'effectuer cette action").

Section Middleware.

Variable verifyToken : string -> M (option User).

(** Lines 69-80: the permission table, then the forwarded request. *)
Definition check (path method : string) (user : User) (requestHeaders : Headers)
  : M Response :=
  let* _ := emit (EvHasPermission (user_role user) path method) in
  if negb (Cookie.hasPermission (user_role user) path method) then ret forbidden_role
  else ret (Next (Some requestHeaders)).

(** Lines 26-80: the body of the [try] block. *)
Definition authenticated (request : Request) (token : string) : M Response :=
  let path := pathname request in
  let method := method request in
  let* user := verifyToken token in
  match user with
  | None => throw "Utilisateur invalide"
  | Some user =>
      let* requestHeaders := ret (headers request) in
      let* requestHeaders :=
        set "x-user-id" (JS.toString (user_id user)) requestHeaders in
      let* requestHeaders :=
        set "x-user-role" (role_name (user_role user)) requestHeaders in
      let* requestHeaders :=
        match user_libraryId user with
        | Some libraryId =>
            if libraryId =? 0 then ret requestHeaders
            else set "x-user-library-id" (JS.toString libraryId) requestHeaders
        | None => ret requestHeaders
        end in
      if JS.startsWith path "/api/users/" then
        let userIdInPath := JS.pop (JS.split "/" path) in
        let isSelfAccess :=
          strict_eq userIdInPath "me"
          || strict_eq userIdInPath (JS.toString (user_id user))
          || role_eqb (user_role user) ADMIN in
        if negb isSelfAccess then ret forbidden_self
        else if strict_eq userIdInPath "me" then
          let* requestHeaders :=
            set "x-requested-user-id" (JS.toString (user_id user)) requestHeaders in
          check path method user requestHeaders
        else check path method user requestHeaders
      else check path method user requestHeaders
  end.

(** [request.cookies.get('auth-token')?.value] is [cookies !! "auth-token"]. *)
Definition middleware (cookies : gmap string string) (request : Request) : M Response :=
  let path := pathname request in
  let token := cookies !! "auth-token" in
  if Cookie.is_public path then ret (Next None)
  else
    match token with
    | None | Some EmptyString => ret unauthenticated
    | Some token =>
        try_catch (authenticated request token) (fun _ => ret token_invalid)
    end.

End Middleware.

End CookieVariant.

(** ** [parseInt]

    [parseInt(s)] without a radix.  A string is the sequence of the UTF-8
    bytes of the JavaScript string.  White space is skipped, a sign and a
    [0x] prefix are read, then the longest run of digits.  The result is a
    double: it is the integer read as long as that is at most 2^53; above,
    it is a double near it, which is left open. *)

Module JSNumber.

Inductive Parsed : Type :=
| NaN                   (* no digit was read *)
| NegZero               (* [-0] *)
| Int (value : Z)       (* the integer read *)
| Beyond.               (* more than 2^53: some double near the integer read *)

(** Up to here every integer is a double. *)
Definition max_exact : Z := 9007199254740992.

(** [StrWhiteSpaceChar], by the length of the UTF-8 encoding.  One byte:
    TAB, LF, VT, FF, CR and SP. *)
Definition is_whitespace (c : ascii) : bool :=
  existsb (Ascii.eqb c) ["009"; "010"; "011"; "012"; "013"; " "]%char.

(** Two bytes: U+00A0. *)
Definition is_whitespace2 (c1 c2 : ascii) : bool :=
  Ascii.eqb c1 "194" && Ascii.eqb c2 "160".

(** Three bytes: U+1680, U+2000 to U+200A, U+2028, U+2029, U+202F, U+205F,
    U+3000 and U+FEFF. *)
Definition is_whitespace3 (c1 c2 c3 : ascii) : bool :=
  let n3 := nat_of_ascii c3 in
  (Ascii.eqb c1 "225" && Ascii.eqb c2 "154" && Ascii.eqb c3 "128")
  || (Ascii.eqb c1 "226" && Ascii.eqb c2 "128"
      && ((128 <=? n3)%nat && (n3 <=? 138)%nat
          || Ascii.eqb c3 "168" || Ascii.eqb c3 "169" || Ascii.eqb c3 "175"))
  || (Ascii.eqb c1 "226" && Ascii.eqb c2 "129" && Ascii.eqb c3 "159")
  || (Ascii.eqb c1 "227" && Ascii.eqb c2 "128" && Ascii.eqb c3 "128")
  || (Ascii.eqb c1 "239" && Ascii.eqb c2 "187" && Ascii.eqb c3 "191").

Fixpoint trimStart (s : string) : string :=
  match s with
  | EmptyString => s
  | String c1 s1 =>
      if is_whitespace c1 then trimStart s1
      else
        match s1 with
        | EmptyString => s
        | String c2 s2 =>
            if is_whitespace2 c1 c2 then trimStart s2
            else
              match s2 with
              | EmptyString => s
              | String c3 s3 =>
                  if is_whitespace3 c1 c2 c3 then trimStart s3 else s
              end
        end
  end.

(** The value of a digit in the radix, if it is one. *)
Definition digit (radix : Z) (c : ascii) : option Z :=
  let n := Z.of_nat (nat_of_ascii c) in
  let value :=
    if (48 <=? n) && (n <=? 57) then Some (n - 48)
    else if (97 <=? n) && (n <=? 122) then Some (n - 87)
    else if (65 <=? n) && (n <=? 90) then Some (n - 55)
    else None in
  match value with
  | Some d => if d <? radix then Some d else None
  | None => None
  end.

(** The value of the longest run of digits at the start; [acc] is the value
    read so far, [None] before the first digit. *)
Fixpoint digits (radix : Z) (s : string) (acc : option Z) : option Z :=
  match s with
  | EmptyString => acc
  | String c s' =>
      match digit radix c with
      | Some d =>
          digits radix s'
            (Some (radix * match acc with Some a => a | None => 0 end + d))
      | None => acc
      end
  end.

Definition parseInt (s : string) : Parsed :=
  let s := trimStart s in
  let '(sign, s) :=
    match s with
    | String "-" s' => (-1, s')
    | String "+" s' => (1, s')
    | _ => (1, s)
    end in
  let '(radix, s) :=
    match s with
    | String "0" (String "x" s') | String "0" (String "X" s') => (16, s')
    | _ => (10, s)
    end in
  match digits radix s None with
  | Some value =>
      if max_exact <? value then Beyond
      else if (sign =? -1) && (value =? 0) then NegZero
      else Int (sign * value)
  | None => NaN
  end.

(** The number that a decimal numeral denotes, after the value [acc]. *)
Fixpoint uint_value (d : Decimal.uint) (acc : Z) : Z :=
  match d with
  | Decimal.Nil => acc
  | Decimal.D0 d => uint_value d (10 * acc + 0)
  | Decimal.D1 d => uint_value d (10 * acc + 1)
  | Decimal.D2 d => uint_value d (10 * acc + 2)
  | Decimal.D3 d => uint_value d (10 * acc + 3)
  | Decimal.D4 d => uint_value d (10 * acc + 4)
  | Decimal.D5 d => uint_value d (10 * acc + 5)
  | Decimal.D6 d => uint_value d (10 * acc + 6)
  | Decimal.D7 d => uint_value d (10 * acc + 7)
  | Decimal.D8 d => uint_value d (10 * acc + 8)
  | Decimal.D9 d => uint_value d (10 * acc + 9)
  end.

(** The ids that are doubles and print without an exponent. *)
Definition safe_integer (n : Z) : bool :=
  (- max_exact <? n) && (n <? max_exact).

End JSNumber.

(** ** The handlers under [/api/users/[id]/]

    What the handlers make of the headers that the middleware sets, before
    they turn to the database.  [id] is [params.id]. *)

Module UserRoutes.

Inductive Gate : Type :=
| Refuse (status : Z) (error : string)
| Target (userId : JSNumber.Parsed).   (* the user whose rows are handled *)

(** [GET] in [src/api/users/[id]/penalties/route.ts], lines 11-34; the [GET]
    of the [logs] route (lines 11-34) and of the [notifications] route (lines
    12-35) starts with the same statements. *)
Definition GET_guard (headers : Headers) (id : string) : Gate :=
  let currentUserId := headers !! "x-user-id" in
  let currentUserRole := headers !! "x-user-role" in
  if negb (JS.truthy_string currentUserId) || negb (JS.truthy_string currentUserRole)
  then Refuse 401 "Headers utilisateur manquants"
  else
    let isAdmin := strict_eq currentUserRole (role_name ADMIN) in
    let isSelfRequest := String.eqb id "me" || strict_eq currentUserId id in
    if negb isSelfRequest && negb isAdmin then Refuse 403 "Accès non autorisé"
    else
      Target
        (if String.eqb id "me"
         then JSNumber.parseInt (match currentUserId with Some v => v | None => "" end)
         else JSNumber.parseInt id).

(** [POST] in [src/api/users/[id]/notifications/route.ts], lines 115-136:
    no exemption for administrators, and the target is always the caller. *)
Definition POST_guard (headers : Headers) (id : string) : Gate :=
  let currentUserId := headers !! "x-user-id" in
  let currentUserRole := headers !! "x-user-role" in
  if negb (JS.truthy_string currentUserId) || negb (JS.truthy_string currentUserRole)
  then Refuse 401 "Headers utilisateur manquants"
  else
    let isSelfRequest := String.eqb id "me" || strict_eq currentUserId id in
    if negb isSelfRequest
    then Refuse 403 "Vous ne pouvez marquer que vos propres notifications comme lues"
    else
      Target
        (JSNumber.parseInt (match currentUserId with Some v => v | None => "" end)).

End UserRoutes.

(** * Proofs *)

Local Arguments String.append !_ _ : simpl nomatch.

(** * Facts about strings *)

Module StringFacts.

Lemma append_nil_r (s : string) : (s ++ "")%string = s.
Proof. induction s as [|c s IH]; simpl; congruence. Qed.

Lemma append_assoc (a b c : string) : ((a ++ b) ++ c = a ++ (b ++ c))%string.
Proof. induction a as [|x a IH]; simpl; congruence. Qed.

(** [startsWith] holds exactly when the string is the prefix followed by
    something. *)
Lemma prefix_app (p s : string) :
  String.prefix p s = true <-> exists rest, s = (p ++ rest)%string.
Proof.
  revert s. induction p as [|c p IH]; intros s; simpl.
  - split; [intros _; exists s; reflexivity | intros _; destruct s; reflexivity].
  - destruct s as [|d s].
    + split; [discriminate | intros [rest H]; discriminate].
    + simpl. destruct (ascii_dec c d) as [ -> | Hne].
      * rewrite IH. split; intros [rest H]; exists rest; congruence.
      * split; [discriminate | intros [rest H]; congruence].
Qed.

Lemma prefix_empty (s : string) : String.prefix "" s = true.
Proof. destruct s; reflexivity. Qed.

Lemma prefix_app_true (p rest : string) : String.prefix p (p ++ rest) = true.
Proof. apply prefix_app. eauto. Qed.

End StringFacts.

(** * The matcher agrees with the declarative semantics *)

Module RegExpFacts.
Import RegExp.

Lemma seq_inv (r1 r2 : regex) (s : string) :
  matches (Seq r1 r2) s ->
  exists s1 s2, s = (s1 ++ s2)%string /\ matches r1 s1 /\ matches r2 s2.
Proof. intros H. inversion H; subst. eauto. Qed.

Lemma alt_inv (r1 r2 : regex) (s : string) :
  matches (Alt r1 r2) s -> matches r1 s \/ matches r2 s.
Proof. intros H. inversion H; subst; auto. Qed.

Lemma chr_inv (c : ascii) (s : string) :
  matches (Chr c) s -> s = String c "".
Proof. intros H. inversion H; subst. reflexivity. Qed.

Lemma nullable_matches (r : regex) : nullable r = true <-> matches r "".
Proof.
  induction r as [| | | |r1 IH1 r2 IH2|r1 IH1 r2 IH2|r IH]; simpl.
  - split; [discriminate | intros H; inversion H].
  - split; [constructor | reflexivity].
  - split; [discriminate | intros H; inversion H].
  - split; [discriminate | intros H; inversion H].
  - rewrite andb_true_iff, IH1, IH2. split.
    + intros [H1 H2]. apply (m_seq _ _ "" "" H1 H2).
    + intros H. apply seq_inv in H as (s1 & s2 & E & M1 & M2).
      destruct s1; [|discriminate]. destruct s2; [|discriminate]. tauto.
  - rewrite orb_true_iff, IH1, IH2. split.
    + intros [H|H]; [apply m_alt_l|apply m_alt_r]; assumption.
    + intros H. inversion H; subst; tauto.
  - split; [constructor | reflexivity].
Qed.

(** A non-empty word of [r*] starts with a non-empty word of [r]. *)
Lemma star_cons_inv (r : regex) (c : ascii) (s : string) :
  matches (Star r) (String c s) ->
  exists s1 s2, s = (s1 ++ s2)%string /\
                matches r (String c s1) /\ matches (Star r) s2.
Proof.
  intros H. remember (Star r) as r' eqn:Er. remember (String c s) as w eqn:Ew.
  revert s Ew. induction H; intros s' Ew; try discriminate.
  injection Er as ->. destruct s1 as [|d s1]; simpl in Ew.
  - apply IHmatches2; auto.
  - injection Ew as -> <-. eauto.
Qed.

Lemma deriv_matches (r : regex) (c : ascii) (s : string) :
  matches (deriv c r) s <-> matches r (String c s).
Proof.
  revert s. induction r; intros s; simpl.
  - split; intros H; inversion H.
  - split; intros H; inversion H.
  - destruct (Ascii.eqb_spec c c0) as [ -> | Hne]; split; intros H; inversion H; subst.
    + constructor.
    + constructor.
    + congruence.
  - destruct (line_terminator c) eqn:E; split; intros H; inversion H; subst.
    + congruence.
    + constructor; assumption.
    + constructor.
  - assert (Hseq : forall s, matches (Seq (deriv c r1) r2) s ->
                             matches (Seq r1 r2) (String c s)).
    { intros w H. inversion H; subst.
      change (String c (s1 ++ s2)) with (String c s1 ++ s2)%string.
      constructor; [apply IHr1|]; assumption. }
    assert (Hinv : matches (Seq r1 r2) (String c s) ->
                   (exists s1 s2, s = (s1 ++ s2)%string /\
                      matches r1 (String c s1) /\ matches r2 s2) \/
                   (matches r1 "" /\ matches r2 (String c s))).
    { intros H. apply seq_inv in H as (s1 & s2 & E & M1 & M2).
      destruct s1 as [|d s1]; simpl in E.
      - right. subst; tauto.
      - injection E as <- ->. left; eauto. }
    destruct (nullable r1) eqn:N.
    + split; intros H.
      * inversion H; subst; [auto|].
        change (String c s) with ("" ++ String c s)%string.
        constructor; [apply nullable_matches; assumption | apply IHr2; assumption].
      * destruct (Hinv H) as [(s1 & s2 & -> & M1 & M2)|[M1 M2]].
        -- apply m_alt_l. constructor; [apply IHr1|]; assumption.
        -- apply m_alt_r. apply IHr2; assumption.
    + split; intros H; [auto|].
      destruct (Hinv H) as [(s1 & s2 & -> & M1 & M2)|[M1 M2]].
      * constructor; [apply IHr1|]; assumption.
      * apply nullable_matches in M1. congruence.
  - split; intros H; inversion H; subst.
    + apply m_alt_l, IHr1; assumption.
    + apply m_alt_r, IHr2; assumption.
    + apply m_alt_l, IHr1; assumption.
    + apply m_alt_r, IHr2; assumption.
  - split; intros H.
    + inversion H; subst.
      change (String c (s1 ++ s2)) with (String c s1 ++ s2)%string.
      constructor; [apply IHr|]; assumption.
    + apply star_cons_inv in H as (s1 & s2 & -> & M1 & M2).
      constructor; [apply IHr|]; assumption.
Qed.

Lemma prefix_match_spec (r : regex) (s : string) :
  prefix_match r s = true <->
  exists s1 s2, s = (s1 ++ s2)%string /\ matches r s1.
Proof.
  revert r. induction s as [|c s IH]; intros r; simpl.
  - rewrite orb_false_r, nullable_matches. split.
    + intros H. exists ""%string, ""%string. auto.
    + intros (s1 & s2 & E & H). destruct s1; [assumption|discriminate].
  - rewrite orb_true_iff, nullable_matches, IH. split.
    + intros [H|(s1 & s2 & -> & H)].
      * exists ""%string, (String c s). auto.
      * exists (String c s1), s2. split; [reflexivity|]. apply deriv_matches, H.
    + intros (s1 & s2 & E & H). destruct s1 as [|d s1]; [left; assumption|].
      right. simpl in E. injection E as -> ->.
      exists s1, s2. split; [reflexivity|]. apply deriv_matches, H.
Qed.

Lemma lit_matches (p s : string) : matches (lit p) s <-> s = p.
Proof.
  revert s. induction p as [|c p IH]; intros s; simpl.
  - split; intros H; [inversion H; reflexivity | subst; constructor].
  - split; intros H.
    + apply seq_inv in H as (s1 & s2 & -> & M1 & M2).
      apply chr_inv in M1. apply IH in M2. subst. reflexivity.
    + subst. change (String c p) with (String c "" ++ p)%string.
      constructor; [constructor | apply IH; reflexivity].
Qed.

(** [/^prefix.*/] tests for the prefix: [.*] may match nothing, and no [$]
    follows it. *)
Lemma test_under (prefix s : string) :
  test (under prefix) s = String.prefix prefix s.
Proof.
  apply eq_true_iff_eq. unfold test, under; simpl.
  rewrite prefix_match_spec, StringFacts.prefix_app. split.
  - intros (s1 & s2 & -> & H).
    apply seq_inv in H as (a & b & -> & M1 & M2).
    apply lit_matches in M1. subst.
    exists (b ++ s2)%string. apply StringFacts.append_assoc.
  - intros [rest ->]. exists prefix, rest. split; [reflexivity|].
    rewrite <- (StringFacts.append_nil_r prefix) at 2.
    constructor; [apply lit_matches; reflexivity | constructor].
Qed.

Lemma test_loans_reservations_penalties (s : string) :
  test loans_reservations_penalties s =
  String.prefix "/api/loans/" s
  || String.prefix "/api/reservations/" s
  || String.prefix "/api/penalties/" s.
Proof.
  apply eq_true_iff_eq. unfold test, loans_reservations_penalties.
  cbn [anchored body].
  rewrite prefix_match_spec, !orb_true_iff, !StringFacts.prefix_app. split.
  - intros (s1 & s2 & -> & H).
    apply seq_inv in H as (a & b & -> & Ma & Mb).
    apply lit_matches in Ma. subst a.
    apply seq_inv in Mb as (w & d & -> & Mw & Md).
    apply seq_inv in Md as (sl & rest & -> & Msl & Mrest).
    apply chr_inv in Msl. subst sl.
    assert (Hw : w = "loans"%string \/ w = "reservations"%string
                 \/ w = "penalties"%string).
    { apply alt_inv in Mw as [M|M]; [left; apply lit_matches, M|].
      apply alt_inv in M as [M|M]; right; [left|right]; apply lit_matches, M. }
    destruct Hw as [ -> | [ -> | -> ] ]; [left; left|left; right|right];
      exists (rest ++ s2)%string; reflexivity.
  - assert (Hgo : forall w rest,
               matches (Alt (lit "loans") (Alt (lit "reservations") (lit "penalties"))) w ->
               exists s1 s2,
                 ("/api/" ++ w ++ "/" ++ rest)%string = (s1 ++ s2)%string /\
                 matches
                   (Seq (lit "/api/")
                      (Seq (Alt (lit "loans")
                              (Alt (lit "reservations") (lit "penalties")))
                         (Seq (Chr "/") (Star Dot)))) s1).
    { intros w rest Hw. exists ("/api/" ++ (w ++ ("/" ++ "")))%string, rest.
      split.
      - rewrite !StringFacts.append_assoc. reflexivity.
      - constructor; [apply lit_matches; reflexivity|].
        constructor; [assumption|].
        constructor; [constructor|constructor]. }
    intros [ [ [rest ->] | [rest ->] ] | [rest ->] ].
    + apply (Hgo "loans"%string rest). apply m_alt_l, lit_matches; reflexivity.
    + apply (Hgo "reservations"%string rest).
      apply m_alt_r, m_alt_l, lit_matches; reflexivity.
    + apply (Hgo "penalties"%string rest).
      apply m_alt_r, m_alt_r, lit_matches; reflexivity.
Qed.

End RegExpFacts.

(** * The permission table *)

Module PermissionFacts.

Lemma includes_In (ms : list string) (m : string) :
  JS.includes ms m = true <-> In m ms.
Proof.
  unfold JS.includes. rewrite existsb_exists. split.
  - intros (x & Hin & E). apply String.eqb_eq in E. subst. assumption.
  - intros H. exists m. split; [assumption | apply String.eqb_refl].
Qed.

(** Unfold a permission lookup down to its tests on the path and the method. *)
Ltac unfold_table :=
  unfold Bearer.hasPermission, Bearer.permissions,
    Cookie.hasPermission, Cookie.permissions,
    Spec.covered, Spec.Permission_Table, Spec.path_covered,
    JS.some, JS.includes, role_eqb;
  cbn [existsb rule_path rule_methods bool_decide decide_rel];
  rewrite ?RegExpFacts.test_under,
    ?RegExpFacts.test_loans_reservations_penalties.

Ltac unfold_table_in H :=
  unfold Bearer.hasPermission, Bearer.permissions,
    Cookie.hasPermission, Cookie.permissions,
    JS.some, JS.includes in H;
  cbn [existsb rule_path rule_methods] in H;
  rewrite ?RegExpFacts.test_under,
    ?RegExpFacts.test_loans_reservations_penalties in H.

(** The table of the source grants exactly what the printed table lists. *)
Lemma hasPermission_covered (role : UserRole) (path method : string) :
  Bearer.hasPermission role path method = Spec.covered role path method.
Proof.
  destruct role; unfold_table;
    rewrite ?bool_decide_true, ?bool_decide_false by congruence;
    cbn [andb orb]; rewrite ?orb_false_r, ?orb_assoc; reflexivity.
Qed.

End PermissionFacts.

(** * Calendar arithmetic *)

Module DateFacts.
Import JSDate.

Lemma MonthFromTime_range (t : Z) : 0 <= MonthFromTime t <= 11.
Proof.
  unfold MonthFromTime.
  repeat match goal with |- context [if ?b then _ else _] => destruct b end; lia.
Qed.

(** The day of the month counts from the first day of that month. *)
Lemma DateFromTime_FirstOfMonth (t : Z) :
  DateFromTime t = Day t - FirstOfMonth (YearFromTime t) (MonthFromTime t) + 1.
Proof.
  unfold DateFromTime, FirstOfMonth, DayWithinYear, InLeapYear.
  pose proof (MonthFromTime_range t) as R.
  destruct (MonthFromTime t) as [|p|p]; [lia| |lia].
  do 4 (destruct p as [p|p|]; try lia).
Qed.

Lemma MakeDay_DateFromTime (t k : Z) :
  MakeDay (YearFromTime t) (MonthFromTime t) (DateFromTime t + k) = Day t + k.
Proof.
  unfold MakeDay. pose proof (MonthFromTime_range t) as R.
  rewrite (Z.div_small (MonthFromTime t) 12), (Z.mod_small (MonthFromTime t) 12) by lia.
  rewrite Z.add_0_r, DateFromTime_FirstOfMonth. lia.
Qed.

(** [d.setDate(d.getDate() + k)] moves the local reading by [k] whole days. *)
Lemma setDate_getDate (tz : TimeZone) (t k : Z) :
  setDate tz t (getDate tz t + k) = UTC tz (LocalTime tz t + k * msPerDay).
Proof.
  unfold setDate, getDate, MakeDate. rewrite MakeDay_DateFromTime. f_equal.
  unfold Day, TimeWithinDay.
  pose proof (Z.div_mod (LocalTime tz t) msPerDay ltac:(discriminate)). lia.
Qed.

Lemma setDate_getDate_fixed (tz : TimeZone) (t k : Z) :
  fixed_offset tz -> setDate tz t (getDate tz t + k) = t + k * msPerDay.
Proof.
  intros [off H]. rewrite setDate_getDate. unfold UTC, LocalTime.
  rewrite !H. lia.
Qed.

End DateFacts.

(** * Splitting paths and printing ids *)

Module SegmentFacts.

Lemma split_nonempty (sep : ascii) (s : string) : JS.split sep s <> [].
Proof.
  induction s as [|c s IH]; simpl; [discriminate|].
  destruct (Ascii.eqb c sep); [discriminate|].
  destruct (JS.split sep s); discriminate.
Qed.

(** Without a separator there is one piece: the string itself. *)
Lemma split_whole (sep : ascii) (s : string) :
  JS.occurs sep s = false -> JS.split sep s = [s].
Proof.
  induction s as [|c s IH]; simpl; [reflexivity|].
  intros H. apply orb_false_iff in H as [Hc Hs].
  rewrite Hc, (IH Hs). reflexivity.
Qed.

Lemma last_cons_nonempty {A} (x : A) (l : list A) : l <> [] -> last (x :: l) = last l.
Proof. destruct l; [congruence | reflexivity]. Qed.

(** A string with a separator splits into at least two pieces. *)
Lemma split_app_two (sep : ascii) (a s : string) :
  exists p q qs, JS.split sep (a ++ String sep s) = p :: q :: qs.
Proof.
  induction a as [|c a (p & q & qs & IH)]; simpl.
  - rewrite Ascii.eqb_refl.
    destruct (JS.split sep s) as [|q qs] eqn:E; [destruct (split_nonempty _ _ E)|].
    eauto.
  - rewrite IH. destruct (Ascii.eqb c sep); eauto.
Qed.

(** The last piece only depends on what follows the last separator. *)
Lemma pop_split_app (sep : ascii) (a s : string) :
  JS.pop (JS.split sep (a ++ String sep s)) = JS.pop (JS.split sep s).
Proof.
  unfold JS.pop. induction a as [|c a IH]; simpl.
  - rewrite Ascii.eqb_refl. apply last_cons_nonempty, split_nonempty.
  - destruct (split_app_two sep a s) as (p & q & qs & E).
    rewrite E in IH |- *. rewrite <- IH.
    destruct (Ascii.eqb c sep); reflexivity.
Qed.

Lemma pop_split_segment (sep : ascii) (a s : string) :
  JS.occurs sep s = false ->
  JS.pop (JS.split sep (a ++ String sep s)) = Some s.
Proof. intros H. rewrite pop_split_app, (split_whole _ _ H). reflexivity. Qed.

(** Decimal printing *)

Lemma string_of_uint_digits (d : Decimal.uint) :
  JS.all_chars JS.digit_or_minus (NilEmpty.string_of_uint d) = true.
Proof. induction d; simpl; auto. Qed.

Lemma toString_digits (n : Z) : JS.all_chars JS.digit_or_minus (JS.toString n) = true.
Proof.
  unfold JS.toString, NilZero.string_of_int, NilZero.string_of_uint.
  destruct (Z.to_int n) as [d|d]; destruct d; simpl;
    try reflexivity; apply string_of_uint_digits.
Qed.

Lemma all_chars_occurs (P : ascii -> bool) (c : ascii) (s : string) :
  JS.all_chars P s = true -> P c = false -> JS.occurs c s = false.
Proof.
  induction s as [|d s IH]; simpl; [reflexivity|].
  intros H Hc. apply andb_true_iff in H as [Hd Hs].
  rewrite (IH Hs Hc), orb_false_r.
  destruct (Ascii.eqb_spec d c); [congruence | reflexivity].
Qed.

(** A printed id is a single path segment. *)
Lemma toString_no_slash (n : Z) : JS.occurs "/" (JS.toString n) = false.
Proof. apply (all_chars_occurs JS.digit_or_minus); [apply toString_digits | reflexivity]. Qed.

Lemma toString_not_me (n : Z) : JS.toString n <> "me".
Proof.
  intros E. pose proof (toString_digits n) as H. rewrite E in H. discriminate.
Qed.

Lemma toString_nonempty (n : Z) : JS.toString n <> "".
Proof.
  unfold JS.toString, NilZero.string_of_int, NilZero.string_of_uint.
  destruct (Z.to_int n) as [d|d]; destruct d; simpl; discriminate.
Qed.

(** Different ids print differently. *)
Lemma toString_inj (n m : Z) : JS.toString n = JS.toString m -> n = m.
Proof.
  unfold JS.toString. intros E.
  assert (H : forall z, NilZero.int_of_string (NilZero.string_of_int (Z.to_int z))
                        = Some (Z.to_int z)).
  { intros z. apply NilZero.isi; destruct z; simpl; try discriminate;
      intros H; injection H as H; exact (Unsigned.to_uint_nonnil _ H). }
  apply DecimalZ.to_int_inj.
  pose proof (H n) as Hn. rewrite E, H in Hn. congruence.
Qed.

End SegmentFacts.

(** * The stages of the pipeline *)

Module StageFacts.
Import Bearer.

Lemma logs_logs (es1 es2 : list Event) (w : World) :
  logs es2 (logs es1 w) = logs (es1 ++ es2) w.
Proof. unfold logs; cbn. f_equal. symmetry. apply app_assoc. Qed.

Lemma logs_nil (w : World) : logs [] w = w.
Proof. destruct w. unfold logs; cbn. f_equal. apply app_nil_r. Qed.

Lemma emit_run (e : Event) (w : World) : emit e w = (Return tt, logs [e] w).
Proof. reflexivity. Qed.

Lemma set_run (name value : string) (h : Headers) (w : World) :
  set name value h w = (Return (<[name := value]> h), logs [EvSetHeader name value] w).
Proof. reflexivity. Qed.

Lemma bind_run {A B} (m : M A) (k : A -> M B) (w w' : World) (a : A) :
  m w = (Return a, w') -> bind m k w = k a w'.
Proof. unfold bind. intros ->. reflexivity. Qed.

Lemma bind_throw {A B} (m : M A) (k : A -> M B) (w w' : World) (e : string) :
  m w = (Throw e, w') -> bind m k w = (Throw e, w').
Proof. unfold bind. intros ->. reflexivity. Qed.

(** The identity headers are always attached, and nothing else happens. *)
Lemma attach_run (request : Request) (user : User) (w : World) :
  attach request user w
  = (Return (identity request user), logs (identity_events user) w).
Proof.
  unfold attach, identity, identity_events.
  rewrite (bind_run _ _ w w (headers request)) by reflexivity.
  erewrite bind_run by apply set_run.
  erewrite bind_run by apply set_run.
  rewrite logs_logs.
  destruct (user_libraryId user) as [l|]; [destruct (l =? 0)|].
  - unfold ret. rewrite app_nil_r. reflexivity.
  - rewrite set_run, logs_logs. reflexivity.
  - unfold ret. rewrite app_nil_r. reflexivity.
Qed.

Lemma users_route_denied (path : string) (user : User) (h : Headers) (w : World) :
  self_denied path user = true ->
  users_route path user h w = (Return (inl forbidden_self), w).
Proof.
  unfold self_denied, users_route. intros H.
  apply andb_true_iff in H as [-> ->]. reflexivity.
Qed.

Lemma users_route_passed (path : string) (user : User) (h : Headers) (w : World) :
  self_denied path user = false ->
  users_route path user h w
  = (Return (inr (if names_me path
                  then <["x-requested-user-id" := JS.toString (user_id user)]> h
                  else h)),
     logs (me_events path user) w).
Proof.
  unfold self_denied, users_route, me_events, names_me. intros H.
  destruct (JS.startsWith path "/api/users/"); simpl in *.
  - apply negb_false_iff in H. rewrite H. simpl.
    destruct (strict_eq (userIdInPath path) "me").
    + erewrite bind_run by apply set_run. reflexivity.
    + unfold ret. rewrite logs_nil. reflexivity.
  - unfold ret. rewrite logs_nil. reflexivity.
Qed.

Lemma authorize_run (path method : string) (user : User) (h : Headers) (w : World) :
  authorize path method user h w
  = (Return (if hasPermission (user_role user) path method
             then Next (Some h) else forbidden_role),
     logs [EvHasPermission (user_role user) path method] w).
Proof.
  unfold authorize. erewrite bind_run by apply emit_run.
  destruct (hasPermission (user_role user) path method); reflexivity.
Qed.

(** Somebody else's user route: refused before the table is looked at. *)
Lemma proceed_denied (request : Request) (user : User) (w : World) :
  self_denied (pathname request) user = true ->
  proceed request user w
  = (Return forbidden_self, logs (identity_events user) w).
Proof.
  intros H. unfold proceed.
  erewrite bind_run by apply attach_run.
  erewrite bind_run by (apply users_route_denied; exact H).
  reflexivity.
Qed.

(** Otherwise the table decides. *)
Lemma proceed_checked (request : Request) (user : User) (w : World) :
  self_denied (pathname request) user = false ->
  proceed request user w
  = (Return (if hasPermission (user_role user) (pathname request) (method request)
             then Next (Some (forwarded_headers request user))
             else forbidden_role),
     logs (identity_events user ++ me_events (pathname request) user
           ++ [EvHasPermission (user_role user) (pathname request) (method request)])
       w).
Proof.
  intros H. unfold proceed.
  erewrite bind_run by apply attach_run.
  erewrite bind_run by (apply users_route_passed; exact H).
  cbv beta iota. rewrite authorize_run, !logs_logs, <- ?app_assoc. reflexivity.
Qed.

End StageFacts.

(** * One request, from the token to the answer *)

Module RunFacts.
Import Bearer StageFacts.

Lemma proceed_run (request : Request) (user : User) (w : World) :
  proceed request user w
  = (Return (verdict request user), logs (proceed_events request user) w).
Proof.
  unfold verdict, proceed_events.
  destruct (self_denied (pathname request) user) eqn:E.
  - rewrite app_nil_r. apply proceed_denied, E.
  - apply proceed_checked, E.
Qed.

(** A row that a token leads to can be found by its id. *)
Lemma row_exists_lookup (m : gmap string Session) (k : string) (s : Session) :
  m !! k = Some s -> row_exists (session_id s) m = true.
Proof.
  intros H. unfold row_exists. apply existsb_exists. exists (k, s). split.
  - apply list_elem_of_In, elem_of_map_to_list, H.
  - unfold has_id. apply String.eqb_refl.
Qed.

Lemma write_expires_lookup (m : gmap string Session) (k : string) (s : Session) (e : Z) :
  m !! k = Some s ->
  write_expires (session_id s) e m !! k = Some (with_expires e s).
Proof.
  intros H. unfold write_expires. rewrite lookup_fmap, H. simpl.
  unfold has_id. rewrite String.eqb_refl. reflexivity.
Qed.

(** Rows of other sessions keep their expiry. *)
Lemma write_expires_other (m : gmap string Session) (id k : string) (s : Session) (e : Z) :
  m !! k = Some s -> session_id s <> id ->
  write_expires id e m !! k = Some s.
Proof.
  intros H Hne. unfold write_expires. rewrite lookup_fmap, H. simpl.
  unfold has_id. apply String.eqb_neq in Hne. rewrite Hne. reflexivity.
Qed.

Lemma refresh_fresh (session : Session) (v : World) :
  (session_expires session - clock v (reads v) <? oneDay) = false ->
  refresh session v = (Return tt, set_reads (S (reads v)) v).
Proof. intros H. unfold refresh, bind, Date_now. rewrite H. reflexivity. Qed.

Lemma refresh_due (session : Session) (v : World) :
  (session_expires session - clock v (reads v) <? oneDay) = true ->
  refresh session v
  = update (session_id session)
      (JSDate.setDate (zone v) (clock v (S (reads v)))
         (JSDate.getDate (zone v) (clock v (S (reads v))) + 30))
      (set_reads (S (S (reads v))) v).
Proof. intros H. unfold refresh, bind, Date_now, local_zone. rewrite H. reflexivity. Qed.

Lemma update_written (id : string) (e : Z) (v : World) :
  update_fault v = WriteOk -> row_exists id (sessions v) = true ->
  update id e v
  = (Return tt, set_sessions (write_expires id e (sessions v)) (logs [EvUpdate id e] v)).
Proof.
  intros Hf Hr. unfold update, bind, emit, log. cbn. rewrite Hf, Hr. reflexivity.
Qed.

Lemma update_failed (id : string) (e : Z) (v : World) :
  update_fault v <> WriteOk ->
  exists msg,
    update id e v
    = (Throw msg,
       set_sessions
         (match update_fault v with
          | AckLost => write_expires id e (sessions v)
          | _ => sessions v
          end) (logs [EvUpdate id e] v)).
Proof.
  intros Hf. unfold update, bind, emit, log. cbn.
  destruct v as [ss ff uf ck rd zn tr]; cbn in *.
  destruct uf; [congruence| |]; eexists; reflexivity.
Qed.

Section Presented.

Variables (request : Request) (w : World) (sessionToken : string) (session : Session).
Hypothesis Hpresents : presents request w sessionToken session.

Let user := session_user session.

Lemma middleware_try :
  middleware request w
  = try_catch (authenticated request sessionToken)
      (fun error => bind (emit EvConsoleError) (fun _ => ret failure)) w.
Proof.
  destruct Hpresents as (Hpub & Htok & Htruthy & _).
  unfold middleware. rewrite Hpub, Htok.
  destruct sessionToken; [discriminate | reflexivity].
Qed.

Lemma authenticated_found :
  authenticated request sessionToken w
  = if expired w session
    then (Return session_invalid,
          set_reads (S (reads w)) (logs [EvFindUnique sessionToken] w))
    else bind (refresh session) (fun _ => proceed request user)
           (set_reads (S (reads w)) (logs [EvFindUnique sessionToken] w)).
Proof.
  destruct Hpresents as (_ & _ & _ & Hfind & Hrow).
  unfold authenticated, findUnique, expired, t_check.
  unfold bind at 1. unfold bind at 1. rewrite emit_run.
  cbn [find_fails logs sessions]. rewrite Hfind, Hrow.
  unfold bind at 1. unfold Date_now at 1. cbn [clock reads logs].
  destruct (session_expires session <? clock w (reads w)); reflexivity.
Qed.

(** An expired session: 401, and nothing but the lookup has happened. *)
Lemma run_expired :
  expired w session = true ->
  exists w',
    middleware request w = (Return session_invalid, w') /\
    sessions w' = sessions w /\
    trace w' = (trace w ++ [EvFindUnique sessionToken])%list.
Proof.
  intros He. rewrite middleware_try. unfold try_catch.
  rewrite authenticated_found, He. eexists. split; [reflexivity|]. split; reflexivity.
Qed.

(** More than a day left: the answer of [proceed], and no write. *)
Lemma run_fresh :
  expired w session = false -> due w session = false ->
  exists w',
    middleware request w = (Return (verdict request user), w') /\
    sessions w' = sessions w /\
    trace w'
    = (trace w ++ EvFindUnique sessionToken :: proceed_events request user)%list.
Proof.
  intros He Hd. rewrite middleware_try. unfold try_catch.
  rewrite authenticated_found, He.
  erewrite bind_run by (apply refresh_fresh; exact Hd).
  rewrite proceed_run. eexists. split; [reflexivity|]. split; [reflexivity|].
  cbn. rewrite <- app_assoc. reflexivity.
Qed.

(** Less than a day left and the store writes: renewed, then [proceed]. *)
Lemma run_renewed :
  expired w session = false -> due w session = true ->
  update_fault w = WriteOk ->
  exists w',
    middleware request w = (Return (verdict request user), w') /\
    sessions w' = write_expires (session_id session) (newExpires w) (sessions w) /\
    trace w'
    = (trace w ++ EvFindUnique sessionToken
         :: EvUpdate (session_id session) (newExpires w)
         :: proceed_events request user)%list.
Proof.
  intros He Hd Hf. rewrite middleware_try. unfold try_catch.
  rewrite authenticated_found, He.
  assert (Hrow : row_exists (session_id session) (sessions w) = true).
  { apply (row_exists_lookup _ sessionToken). apply Hpresents. }
  erewrite bind_run.
  2:{ rewrite refresh_due by exact Hd. apply update_written; [exact Hf | exact Hrow]. }
  rewrite proceed_run. unfold newExpires, t_new.
  eexists. split; [reflexivity|].
  cbn [zone clock reads set_reads logs set_sessions sessions trace].
  split; [reflexivity|]. rewrite <- !app_assoc. reflexivity.
Qed.

(** Less than a day left and the write fails: 500. *)
Lemma run_failed :
  expired w session = false -> due w session = true ->
  update_fault w <> WriteOk ->
  exists w',
    middleware request w = (Return failure, w') /\
    sessions w'
    = match update_fault w with
      | AckLost => write_expires (session_id session) (newExpires w) (sessions w)
      | _ => sessions w
      end /\
    trace w'
    = (trace w ++ [EvFindUnique sessionToken;
                   EvUpdate (session_id session) (newExpires w);
                   EvConsoleError])%list.
Proof.
  intros He Hd Hf. rewrite middleware_try. unfold try_catch.
  rewrite authenticated_found, He.
  unfold bind at 1. rewrite refresh_due by exact Hd.
  match goal with
  | |- context [update ?i ?e ?v] => destruct (update_failed i e v Hf) as [msg Hu]
  end.
  rewrite Hu. unfold bind, emit, ret, log. unfold newExpires, t_new.
  eexists. split; [reflexivity|].
  cbn [zone clock reads set_reads logs set_sessions sessions trace update_fault].
  split; [reflexivity|]. rewrite <- !app_assoc. reflexivity.
Qed.

End Presented.

(** No row for the token: 401 after the lookup, exactly as for an expired one. *)
Lemma run_absent (request : Request) (w : World) (sessionToken : string) :
  is_public (pathname request) = false ->
  bearer_token request = Some sessionToken ->
  JS.truthy_string (Some sessionToken) = true ->
  find_fails w = false ->
  sessions w !! sessionToken = None ->
  exists w',
    middleware request w = (Return session_invalid, w') /\
    sessions w' = sessions w /\
    trace w' = (trace w ++ [EvFindUnique sessionToken])%list.
Proof.
  intros Hpub Htok Htruthy Hfind Hrow.
  unfold middleware. rewrite Hpub, Htok.
  destruct sessionToken as [|c tok]; [discriminate|].
  unfold try_catch, authenticated, findUnique.
  unfold bind at 1. unfold bind at 1. rewrite emit_run.
  cbn [find_fails logs sessions]. rewrite Hfind, Hrow.
  eexists. split; [reflexivity|]. split; reflexivity.
Qed.

End RunFacts.

(** * Properties of the middleware *)

Module TraceFacts.
Import Bearer.

Lemma lookups_app (t1 t2 : list Event) :
  lookups (t1 ++ t2) = (lookups t1 ++ lookups t2)%list.
Proof. apply List.filter_app. Qed.

Lemma updates_app (t1 t2 : list Event) :
  updates (t1 ++ t2) = (updates t1 ++ updates t2)%list.
Proof. apply List.filter_app. Qed.

Lemma header_sets_app (t1 t2 : list Event) :
  header_sets (t1 ++ t2) = (header_sets t1 ++ header_sets t2)%list.
Proof. apply List.filter_app. Qed.

Lemma lookups_identity_events (user : User) : lookups (identity_events user) = [].
Proof.
  unfold identity_events.
  destruct (user_libraryId user) as [l|]; [destruct (l =? 0)|]; reflexivity.
Qed.

Lemma updates_identity_events (user : User) : updates (identity_events user) = [].
Proof.
  unfold identity_events.
  destruct (user_libraryId user) as [l|]; [destruct (l =? 0)|]; reflexivity.
Qed.

Lemma lookups_me_events (path : string) (user : User) :
  lookups (me_events path user) = [].
Proof. unfold me_events. destruct (names_me path); reflexivity. Qed.

Lemma updates_me_events (path : string) (user : User) :
  updates (me_events path user) = [].
Proof. unfold me_events. destruct (names_me path); reflexivity. Qed.

(** [proceed] looks the table up once, unless the self-access rule refuses. *)
Lemma lookups_proceed_events (request : Request) (user : User) :
  lookups (proceed_events request user)
  = if self_denied (pathname request) user then []
    else [EvHasPermission (user_role user) (pathname request) (method request)].
Proof.
  unfold proceed_events. rewrite lookups_app, lookups_identity_events.
  destruct (self_denied (pathname request) user); [reflexivity|].
  rewrite lookups_app, lookups_me_events. reflexivity.
Qed.

(** [proceed] never writes to the store. *)
Lemma updates_proceed_events (request : Request) (user : User) :
  updates (proceed_events request user) = [].
Proof.
  unfold proceed_events. rewrite updates_app, updates_identity_events.
  destruct (self_denied (pathname request) user); [reflexivity|].
  rewrite updates_app, updates_me_events. reflexivity.
Qed.

End TraceFacts.

Module RouteFacts.
Import Bearer.

(** No user route is public. *)
Lemma users_not_public (path : string) :
  JS.startsWith path "/api/users/" = true -> is_public path = false.
Proof.
  unfold JS.startsWith. intros H. apply StringFacts.prefix_app in H as [rest ->].
  reflexivity.
Qed.

Lemma userIdInPath_users (s : string) :
  JS.occurs "/" s = false -> userIdInPath ("/api/users/" ++ s) = Some s.
Proof.
  intros H. unfold userIdInPath.
  change ("/api/users/" ++ s)%string with ("/api/users" ++ String "/" s)%string.
  apply SegmentFacts.pop_split_segment, H.
Qed.

Lemma userIdInPath_sub (owner sub : string) :
  JS.occurs "/" sub = false ->
  userIdInPath ("/api/users/" ++ owner ++ "/" ++ sub) = Some sub.
Proof.
  intros H. unfold userIdInPath.
  replace ("/api/users/" ++ owner ++ "/" ++ sub)%string
    with (("/api/users/" ++ owner) ++ String "/" sub)%string
    by (rewrite StringFacts.append_assoc; reflexivity).
  apply SegmentFacts.pop_split_segment, H.
Qed.

Lemma startsWith_users (s : string) :
  JS.startsWith ("/api/users/" ++ s) "/api/users/" = true.
Proof. apply StringFacts.prefix_app_true. Qed.

(** A last segment that names neither [me] nor the caller is refused to
    everybody but administrators. *)
Lemma foreign_segment_denied (path s : string) (user : User) :
  JS.startsWith path "/api/users/" = true ->
  userIdInPath path = Some s ->
  s <> "me" -> s <> JS.toString (user_id user) ->
  user_role user <> ADMIN ->
  self_denied path user = true.
Proof.
  intros Hp Hs Hme Hid Hrole. unfold self_denied, isSelfAccess.
  rewrite Hp, Hs. simpl.
  apply String.eqb_neq in Hme, Hid. rewrite Hme, Hid. simpl.
  unfold role_eqb. rewrite bool_decide_false by assumption. reflexivity.
Qed.

Lemma own_segment_allowed (path s : string) (user : User) :
  userIdInPath path = Some s ->
  s = "me" \/ s = JS.toString (user_id user) ->
  self_denied path user = false.
Proof.
  intros Hs H. unfold self_denied, isSelfAccess. rewrite Hs. simpl.
  destruct H as [-> | ->].
  - simpl. apply andb_false_r.
  - rewrite String.eqb_refl, orb_true_r. simpl. apply andb_false_r.
Qed.

End RouteFacts.

Module ClaimFacts.
Import Bearer.

(** An authenticated request gets the answer of [proceed]; the table is
    looked up at most once, after the self-access rule. *)
Lemma run_authenticated (request : Request) (w : World)
    (sessionToken : string) (session : Session) :
  authenticates request w sessionToken session ->
  exists w',
    middleware request w = (Return (verdict request (session_user session)), w') /\
    lookups (trace w')
    = (lookups (trace w)
       ++ lookups (proceed_events request (session_user session)))%list.
Proof.
  intros (Hp & He & Hr). unfold renewal_succeeds in Hr.
  destruct (due w session) eqn:Hd.
  - destruct (update_fault w) eqn:Hf; try discriminate.
    destruct (RunFacts.run_renewed _ _ _ _ Hp He Hd Hf) as (w' & Hrun & _ & Ht).
    exists w'. split; [exact Hrun|]. rewrite Ht.
    rewrite TraceFacts.lookups_app. reflexivity.
  - destruct (RunFacts.run_fresh _ _ _ _ Hp He Hd) as (w' & Hrun & _ & Ht).
    exists w'. split; [exact Hrun|]. rewrite Ht.
    rewrite TraceFacts.lookups_app. reflexivity.
Qed.

Lemma presents_forget (request : Request) (w : World)
    (sessionToken : string) (session : Session) :
  presents request w sessionToken session ->
  exists w',
    middleware request (forget sessionToken w) = (Return session_invalid, w') /\
    sessions w' = sessions (forget sessionToken w) /\
    trace w' = (trace w ++ [EvFindUnique sessionToken])%list.
Proof.
  intros (Hpub & Htok & Htruthy & Hfind & _).
  apply (RunFacts.run_absent request (forget sessionToken w) sessionToken);
    try assumption.
  unfold forget. cbn. apply lookup_delete_eq.
Qed.

Lemma due_lt (w : World) (session : Session) :
  due w session = true <-> session_expires session - t_renew w < 86400000.
Proof. unfold due, oneDay. apply Z.ltb_lt. Qed.

Lemma due_ge (w : World) (session : Session) :
  due w session = false <-> 86400000 <= session_expires session - t_renew w.
Proof. unfold due, oneDay. apply Z.ltb_ge. Qed.

End ClaimFacts.

(** C1. Deny by default: whatever the printed permission table does not list
    for a role, [hasPermission] refuses; in particular a MANAGER may not
    DELETE [/api/users]. *)
Theorem deny_by_default :
  (forall role path method,
      Spec.covered role path method = false ->
      Bearer.hasPermission role path method = false)
  /\ Bearer.hasPermission MANAGER "/api/users" "DELETE" = false.
Proof.
  split.
  - intros role path method H. rewrite PermissionFacts.hasPermission_covered. exact H.
  - reflexivity.
Qed.

Lemma deny_by_default_witness :
  Spec.covered CLIENT "/api/books" "POST" = false
  /\ Bearer.hasPermission CLIENT "/api/books" "POST" = false.
Proof.
  split; [reflexivity|].
  apply (proj1 deny_by_default CLIENT "/api/books" "POST"). reflexivity.
Defined.

(** C5. ADMIN has full access: every path under [/api/] with any of the
    methods GET, POST, PATCH and DELETE is permitted. *)
Theorem admin_full_access (path method : string) :
  JS.startsWith path "/api/" = true ->
  In method ["GET"; "POST"; "PATCH"; "DELETE"] ->
  Bearer.hasPermission ADMIN path method = true.
Proof.
  intros Hp Hm. unfold Bearer.hasPermission, Bearer.permissions, JS.some.
  cbn [existsb rule_path rule_methods].
  rewrite RegExpFacts.test_under. unfold JS.startsWith in Hp. rewrite Hp.
  apply PermissionFacts.includes_In in Hm. rewrite Hm. reflexivity.
Qed.

Lemma admin_full_access_witness :
  Bearer.hasPermission ADMIN "/api/users/8/penalties" "DELETE" = true.
Proof.
  apply admin_full_access; [reflexivity | simpl; tauto].
Defined.

(** C3. A token whose session row has expired is answered with 401: no
    renewal is written, no header is set, the permission table is not looked
    up, and the answer and the trace are those for a token without a row. *)
Theorem expired_session_rejected (request : Request) (w : World)
    (sessionToken : string) (session : Session) :
  Bearer.presents request w sessionToken session ->
  session_expires session < Bearer.t_check w ->
  exists w',
    Bearer.middleware request w = (Return Bearer.session_invalid, w') /\
    Bearer.status Bearer.session_invalid = 401 /\
    sessions w' = sessions w /\
    Bearer.updates (trace w') = Bearer.updates (trace w) /\
    Bearer.header_sets (trace w') = Bearer.header_sets (trace w) /\
    Bearer.lookups (trace w') = Bearer.lookups (trace w) /\
    exists w0,
      Bearer.middleware request (Bearer.forget sessionToken w)
      = (Return Bearer.session_invalid, w0) /\
      trace w0 = trace w'.
Proof.
  intros Hp Hlt.
  assert (He : Bearer.expired w session = true) by (apply Z.ltb_lt, Hlt).
  destruct (RunFacts.run_expired _ _ _ _ Hp He) as (w' & Hrun & Hs & Ht).
  destruct (ClaimFacts.presents_forget _ _ _ _ Hp) as (w0 & Hrun0 & _ & Ht0).
  exists w'. repeat split; try assumption.
  - rewrite Ht, TraceFacts.updates_app. apply app_nil_r.
  - rewrite Ht, TraceFacts.header_sets_app. apply app_nil_r.
  - rewrite Ht, TraceFacts.lookups_app. apply app_nil_r.
  - exists w0. split; [exact Hrun0 | congruence].
Qed.

Lemma expired_session_rejected_witness :
  exists w',
    Bearer.middleware (Scenario.request "/api/books" "GET")
      (Scenario.world (Scenario.session_of Scenario.client7 (-1)) WriteOk)
    = (Return Bearer.session_invalid, w') /\
    sessions w' = {[ "tok" := Scenario.session_of Scenario.client7 (-1) ]}.
Proof.
  destruct (expired_session_rejected
              (Scenario.request "/api/books" "GET")
              (Scenario.world (Scenario.session_of Scenario.client7 (-1)) WriteOk)
              "tok" (Scenario.session_of Scenario.client7 (-1)))
    as (w' & Hrun & _ & Hs & _).
  - repeat split; reflexivity.
  - reflexivity.
  - exists w'. split; [exact Hrun | exact Hs].
Defined.

(** C4. Sliding renewal.  For a request with a stored, unexpired session:
    when less than a day (86 400 000 ms) is left, the write of the new expiry
    is issued before anything else of the request, the new expiry is thirty
    days after now (30 * 86 400 000 ms where the zone has a fixed offset), and
    the request only continues (any answer but 500) with the new expiry
    stored; when more than a day is left, nothing is written. *)
Theorem sliding_renewal (request : Request) (w : World)
    (sessionToken : string) (session : Session) :
  Bearer.presents request w sessionToken session ->
  Bearer.t_check w <= session_expires session ->
  (session_expires session - Bearer.t_renew w < 86400000 ->
   exists response w',
     Bearer.middleware request w = (Return response, w') /\
     (exists rest,
        trace w'
        = (trace w ++ EvFindUnique sessionToken
             :: EvUpdate (session_id session) (Bearer.newExpires w) :: rest)%list /\
        Bearer.updates rest = []) /\
     (Bearer.status response <> 500 ->
      sessions w' !! sessionToken
      = Some (with_expires (Bearer.newExpires w) session)) /\
     (update_fault w = WriteOk ->
      response = Bearer.verdict request (session_user session)) /\
     Bearer.newExpires w
     = JSDate.UTC (zone w)
         (JSDate.LocalTime (zone w) (Bearer.t_new w) + 30 * JSDate.msPerDay) /\
     (JSDate.fixed_offset (zone w) ->
      Bearer.newExpires w = Bearer.t_new w + 30 * 86400000))
  /\
  (86400000 < session_expires session - Bearer.t_renew w ->
   exists w',
     Bearer.middleware request w
     = (Return (Bearer.verdict request (session_user session)), w') /\
     sessions w' = sessions w /\
     Bearer.updates (trace w') = Bearer.updates (trace w)).
Proof.
  intros Hp Hvalid.
  assert (He : Bearer.expired w session = false) by (apply Z.ltb_ge, Hvalid).
  split.
  - intros Hlt. apply ClaimFacts.due_lt in Hlt as Hd.
    assert (Hnew : Bearer.newExpires w
                   = JSDate.UTC (zone w)
                       (JSDate.LocalTime (zone w) (Bearer.t_new w)
                        + 30 * JSDate.msPerDay))
      by apply DateFacts.setDate_getDate.
    assert (Hfix : JSDate.fixed_offset (zone w) ->
                   Bearer.newExpires w = Bearer.t_new w + 30 * 86400000)
      by (intros Hz; apply (DateFacts.setDate_getDate_fixed _ _ 30 Hz)).
    destruct (decide (update_fault w = WriteOk)) as [Hf|Hf].
    + destruct (RunFacts.run_renewed _ _ _ _ Hp He Hd Hf) as (w' & Hrun & Hs & Ht).
      exists (Bearer.verdict request (session_user session)), w'.
      split; [exact Hrun|]. split; [|split; [|split; [|split]]]; try assumption.
      * eexists. split; [exact Ht | apply TraceFacts.updates_proceed_events].
      * intros _. rewrite Hs. apply RunFacts.write_expires_lookup, Hp.
      * reflexivity.
    + destruct (RunFacts.run_failed _ _ _ _ Hp He Hd Hf) as (w' & Hrun & Hs & Ht).
      exists Bearer.failure, w'.
      split; [exact Hrun|]. split; [|split; [|split; [|split]]]; try assumption.
      * eexists. split; [exact Ht | reflexivity].
      * intros H. exfalso. apply H. reflexivity.
      * intros H. contradiction.
  - intros Hgt.
    assert (Hd : Bearer.due w session = false) by (apply ClaimFacts.due_ge; lia).
    destruct (RunFacts.run_fresh _ _ _ _ Hp He Hd) as (w' & Hrun & Hs & Ht).
    exists w'. split; [exact Hrun|]. split; [exact Hs|].
    rewrite Ht, TraceFacts.updates_app. cbn [Bearer.updates List.filter Bearer.is_update].
    fold (Bearer.updates (Bearer.proceed_events request (session_user session))).
    rewrite TraceFacts.updates_proceed_events. apply app_nil_r.
Qed.

(** Twelve hours left: the row then expires thirty days after the reading
    of the clock. *)
Lemma sliding_renewal_witness :
  exists response w',
    Bearer.middleware (Scenario.request "/api/books" "GET")
      (Scenario.world (Scenario.session_of Scenario.client7 (12 * Scenario.hour)) WriteOk)
    = (Return response, w') /\
    sessions w' !! "tok"
    = Some (Scenario.session_of Scenario.client7 (2 + 30 * 86400000)).
Proof.
  destruct (sliding_renewal
              (Scenario.request "/api/books" "GET")
              (Scenario.world
                 (Scenario.session_of Scenario.client7 (12 * Scenario.hour)) WriteOk)
              "tok" (Scenario.session_of Scenario.client7 (12 * Scenario.hour)))
    as [Hdue _].
  - repeat split; reflexivity.
  - vm_compute. discriminate.
  - destruct Hdue as (response & w' & Hrun & _ & Hstored & Hok & _).
    + vm_compute. reflexivity.
    + exists response, w'. split; [exact Hrun|].
      rewrite Hstored; [reflexivity|].
      rewrite Hok by reflexivity. vm_compute. discriminate.
Defined.

(** C6. A renewal that is due and whose write fails is answered with 500,
    not forwarded; the table holds either what it held or the completed
    write, nothing in between. *)
Theorem renewal_failure_is_500 (request : Request) (w : World)
    (sessionToken : string) (session : Session) :
  Bearer.presents request w sessionToken session ->
  Bearer.t_check w <= session_expires session ->
  session_expires session - Bearer.t_renew w < 86400000 ->
  update_fault w <> WriteOk ->
  exists w',
    Bearer.middleware request w = (Return Bearer.failure, w') /\
    Bearer.status Bearer.failure = 500 /\
    (sessions w' = sessions w \/
     sessions w'
     = write_expires (session_id session) (Bearer.newExpires w) (sessions w)) /\
    (sessions w' !! sessionToken = Some session \/
     sessions w' !! sessionToken
     = Some (with_expires (Bearer.newExpires w) session)) /\
    Bearer.header_sets (trace w') = Bearer.header_sets (trace w) /\
    Bearer.lookups (trace w') = Bearer.lookups (trace w).
Proof.
  intros Hp Hvalid Hlt Hf.
  assert (He : Bearer.expired w session = false) by (apply Z.ltb_ge, Hvalid).
  apply ClaimFacts.due_lt in Hlt as Hd.
  destruct (RunFacts.run_failed _ _ _ _ Hp He Hd Hf) as (w' & Hrun & Hs & Ht).
  assert (Hrow : sessions w !! sessionToken = Some session) by apply Hp.
  exists w'. split; [exact Hrun|]. split; [reflexivity|].
  split; [|split; [|split]].
  - rewrite Hs. destruct (update_fault w); tauto.
  - rewrite Hs. destruct (update_fault w); auto.
    right. apply RunFacts.write_expires_lookup, Hrow.
  - rewrite Ht, TraceFacts.header_sets_app. apply app_nil_r.
  - rewrite Ht, TraceFacts.lookups_app. apply app_nil_r.
Qed.

Lemma renewal_failure_is_500_witness :
  exists w',
    Bearer.middleware (Scenario.request "/api/books" "GET")
      (Scenario.world
         (Scenario.session_of Scenario.client7 (12 * Scenario.hour)) WriteRefused)
    = (Return Bearer.failure, w').
Proof.
  destruct (renewal_failure_is_500
              (Scenario.request "/api/books" "GET")
              (Scenario.world
                 (Scenario.session_of Scenario.client7 (12 * Scenario.hour))
                 WriteRefused)
              "tok" (Scenario.session_of Scenario.client7 (12 * Scenario.hour)))
    as (w' & Hrun & _).
  - repeat split; reflexivity.
  - vm_compute. discriminate.
  - vm_compute. reflexivity.
  - discriminate.
  - exists w'. exact Hrun.
Defined.

(** C2. The self-access rule comes before the permission table.  For an
    authenticated caller who is not an administrator: a request for
    [/api/users/me] or [/api/users/<own id>] reaches the permission check,
    which gives the answer; a request for [/api/users/<other id>] is answered
    with 403 and the table is never looked up. *)
Theorem self_access_precedes_permissions (request : Request) (w : World)
    (sessionToken : string) (session : Session) :
  let user := session_user session in
  Bearer.authenticates request w sessionToken session ->
  user_role user <> ADMIN ->
  (forall s,
      pathname request = ("/api/users/" ++ s)%string ->
      s = "me"%string \/ s = JS.toString (user_id user) ->
      exists w',
        Bearer.middleware request w
        = (Return
             (if Bearer.hasPermission (user_role user) (pathname request) (method request)
              then Next (Some (Bearer.forwarded_headers request user))
              else Bearer.forbidden_role), w') /\
        Bearer.lookups (trace w')
        = (Bearer.lookups (trace w)
           ++ [EvHasPermission (user_role user) (pathname request) (method request)])%list)
  /\
  (forall other,
      other <> user_id user ->
      pathname request = ("/api/users/" ++ JS.toString other)%string ->
      exists w',
        Bearer.middleware request w = (Return Bearer.forbidden_self, w') /\
        Bearer.status Bearer.forbidden_self = 403 /\
        Bearer.lookups (trace w') = Bearer.lookups (trace w)).
Proof.
  intros user Hauth Hrole.
  destruct (ClaimFacts.run_authenticated _ _ _ _ Hauth) as (w' & Hrun & Ht).
  fold user in Hrun, Ht. rewrite TraceFacts.lookups_proceed_events in Ht.
  unfold Bearer.verdict in Hrun. split.
  - intros s Hpath Hs.
    assert (Hok : Bearer.self_denied (pathname request) user = false).
    { apply (RouteFacts.own_segment_allowed _ s); [|exact Hs].
      rewrite Hpath. apply RouteFacts.userIdInPath_users.
      destruct Hs as [-> | ->];
        [reflexivity | apply SegmentFacts.toString_no_slash]. }
    rewrite Hok in Hrun, Ht. exists w'. split; assumption.
  - intros other Hother Hpath.
    assert (Hden : Bearer.self_denied (pathname request) user = true).
    { apply (RouteFacts.foreign_segment_denied _ (JS.toString other)).
      - rewrite Hpath. apply RouteFacts.startsWith_users.
      - rewrite Hpath. apply RouteFacts.userIdInPath_users,
          SegmentFacts.toString_no_slash.
      - apply SegmentFacts.toString_not_me.
      - intros E. apply Hother, SegmentFacts.toString_inj, E.
      - exact Hrole. }
    rewrite Hden in Hrun, Ht. exists w'.
    split; [exact Hrun|]. split; [reflexivity|]. rewrite Ht. apply app_nil_r.
Qed.

(** The client with id 7 asks for user 8, a day and a half before the
    session ends. *)
Lemma self_access_precedes_permissions_witness :
  exists w',
    Bearer.middleware (Scenario.request "/api/users/8" "GET")
      (Scenario.world (Scenario.session_of Scenario.client7 (36 * Scenario.hour)) WriteOk)
    = (Return Bearer.forbidden_self, w') /\
    Bearer.lookups (trace w') = [].
Proof.
  destruct (self_access_precedes_permissions
              (Scenario.request "/api/users/8" "GET")
              (Scenario.world
                 (Scenario.session_of Scenario.client7 (36 * Scenario.hour)) WriteOk)
              "tok" (Scenario.session_of Scenario.client7 (36 * Scenario.hour)))
    as [_ Hother].
  - repeat split; reflexivity.
  - discriminate.
  - destruct (Hother 8) as (w' & Hrun & _ & Ht).
    + discriminate.
    + reflexivity.
    + exists w'. split; [exact Hrun | exact Ht].
Defined.

(** C9. Only the last segment is compared: for a caller who is not an
    administrator, [/api/users/<owner>/<sub>] is answered with 403 whenever
    [<sub>] is neither [me] nor the caller's id, also when [<owner>] is the
    caller's own id. *)
Theorem subresource_of_own_id_rejected (request : Request) (w : World)
    (sessionToken : string) (session : Session) (owner sub : string) :
  let user := session_user session in
  Bearer.authenticates request w sessionToken session ->
  user_role user <> ADMIN ->
  pathname request = ("/api/users/" ++ owner ++ "/" ++ sub)%string ->
  JS.occurs "/" sub = false ->
  sub <> "me"%string ->
  sub <> JS.toString (user_id user) ->
  exists w',
    Bearer.middleware request w = (Return Bearer.forbidden_self, w') /\
    Bearer.status Bearer.forbidden_self = 403 /\
    Bearer.lookups (trace w') = Bearer.lookups (trace w).
Proof.
  intros user Hauth Hrole Hpath Hseg Hme Hid.
  destruct (ClaimFacts.run_authenticated _ _ _ _ Hauth) as (w' & Hrun & Ht).
  fold user in Hrun, Ht. rewrite TraceFacts.lookups_proceed_events in Ht.
  unfold Bearer.verdict in Hrun.
  assert (Hden : Bearer.self_denied (pathname request) user = true).
  { apply (RouteFacts.foreign_segment_denied _ sub); try assumption.
    - rewrite Hpath. apply RouteFacts.startsWith_users.
    - rewrite Hpath. apply RouteFacts.userIdInPath_sub, Hseg. }
  rewrite Hden in Hrun, Ht. exists w'.
  split; [exact Hrun|]. split; [reflexivity|]. rewrite Ht. apply app_nil_r.
Qed.

Lemma subresource_of_own_id_rejected_witness :
  exists w',
    Bearer.middleware (Scenario.request "/api/users/7/penalties" "GET")
      (Scenario.world (Scenario.session_of Scenario.client7 (36 * Scenario.hour)) WriteOk)
    = (Return Bearer.forbidden_self, w').
Proof.
  destruct (subresource_of_own_id_rejected
              (Scenario.request "/api/users/7/penalties" "GET")
              (Scenario.world
                 (Scenario.session_of Scenario.client7 (36 * Scenario.hour)) WriteOk)
              "tok" (Scenario.session_of Scenario.client7 (36 * Scenario.hour))
              "7" "penalties")
    as (w' & Hrun & _).
  - repeat split; reflexivity.
  - discriminate.
  - reflexivity.
  - reflexivity.
  - discriminate.
  - discriminate.
  - exists w'. exact Hrun.
Defined.

(** C10. Renewal comes before authorization: when less than a day is left
    and the request ends in a 403, the row already carries the new expiry,
    written before any later step. *)
Theorem renewal_survives_rejection (request : Request) (w w' : World)
    (sessionToken : string) (session : Session) (response : Response) :
  Bearer.presents request w sessionToken session ->
  Bearer.t_check w <= session_expires session ->
  session_expires session - Bearer.t_renew w < 86400000 ->
  Bearer.middleware request w = (Return response, w') ->
  Bearer.status response = 403 ->
  sessions w' !! sessionToken = Some (with_expires (Bearer.newExpires w) session) /\
  Bearer.newExpires w
  = JSDate.UTC (zone w)
      (JSDate.LocalTime (zone w) (Bearer.t_new w) + 30 * JSDate.msPerDay) /\
  exists rest,
    trace w'
    = (trace w ++ EvFindUnique sessionToken
         :: EvUpdate (session_id session) (Bearer.newExpires w) :: rest)%list.
Proof.
  intros Hp Hvalid Hlt Hrun Hstatus.
  assert (He : Bearer.expired w session = false) by (apply Z.ltb_ge, Hvalid).
  apply ClaimFacts.due_lt in Hlt as Hd.
  destruct (decide (update_fault w = WriteOk)) as [Hf|Hf].
  - destruct (RunFacts.run_renewed _ _ _ _ Hp He Hd Hf) as (v & Hv & Hs & Ht).
    rewrite Hrun in Hv. injection Hv as -> ->.
    split; [|split].
    + rewrite Hs. apply RunFacts.write_expires_lookup, Hp.
    + apply DateFacts.setDate_getDate.
    + eexists. exact Ht.
  - destruct (RunFacts.run_failed _ _ _ _ Hp He Hd Hf) as (v & Hv & _).
    rewrite Hrun in Hv. injection Hv as -> _. discriminate.
Qed.

(** The client asks for user 8 with twelve hours left: refused, and renewed. *)
Lemma renewal_survives_rejection_witness :
  let request := Scenario.request "/api/users/8" "GET" in
  let session := Scenario.session_of Scenario.client7 (12 * Scenario.hour) in
  let w := Scenario.world session WriteOk in
  fst (Bearer.middleware request w) = Return Bearer.forbidden_self /\
  sessions (snd (Bearer.middleware request w)) !! "tok"
  = Some (with_expires (Bearer.newExpires w) session).
Proof.
  intros request session w. split; [vm_compute; reflexivity|].
  refine (proj1 (renewal_survives_rejection request w
                   (snd (Bearer.middleware request w)) "tok" session
                   Bearer.forbidden_self _ _ _ _ _)).
  - repeat split; reflexivity.
  - vm_compute. discriminate.
  - vm_compute. reflexivity.
  - rewrite (surjective_pairing (Bearer.middleware request w)) at 1.
    f_equal; vm_compute; reflexivity.
  - reflexivity.
Defined.

Module ForwardFacts.
Import Bearer StageFacts.

(** Whatever the middleware forwards with headers went through a stored,
    unexpired session and got the answer of [proceed]. *)
Lemma forwarded_inv (request : Request) (w w' : World) (fwd : option Headers) :
  is_public (pathname request) = false ->
  middleware request w = (Return (Next fwd), w') ->
  exists sessionToken session,
    presents request w sessionToken session /\
    expired w session = false /\
    verdict request (session_user session) = Next fwd.
Proof.
  intros Hpub Hrun.
  destruct (bearer_token request) as [tok|] eqn:Htok.
  2:{ unfold middleware in Hrun. rewrite Hpub, Htok in Hrun. discriminate. }
  destruct (JS.truthy_string (Some tok)) eqn:Htruthy.
  2:{ unfold middleware in Hrun. rewrite Hpub, Htok in Hrun.
      destruct tok; discriminate. }
  destruct (find_fails w) eqn:Hfind.
  { unfold middleware in Hrun. rewrite Hpub, Htok in Hrun.
    destruct tok as [|c tok]; [discriminate|].
    unfold try_catch, authenticated, findUnique in Hrun.
    unfold bind at 1 in Hrun. unfold bind at 1 in Hrun. rewrite emit_run in Hrun.
    cbn [find_fails logs] in Hrun. rewrite Hfind in Hrun. discriminate. }
  destruct (sessions w !! tok) as [session|] eqn:Hrow.
  2:{ destruct (RunFacts.run_absent request w tok Hpub Htok Htruthy Hfind Hrow)
        as (v & Hv & _).
      rewrite Hrun in Hv. discriminate. }
  assert (Hp : presents request w tok session) by (repeat split; assumption).
  exists tok, session. split; [exact Hp|].
  destruct (expired w session) eqn:He.
  { destruct (RunFacts.run_expired _ _ _ _ Hp He) as (v & Hv & _).
    rewrite Hrun in Hv. discriminate. }
  split; [reflexivity|].
  destruct (due w session) eqn:Hd.
  - destruct (decide (update_fault w = WriteOk)) as [Hf|Hf].
    + destruct (RunFacts.run_renewed _ _ _ _ Hp He Hd Hf) as (v & Hv & _).
      rewrite Hrun in Hv. injection Hv as <- _. reflexivity.
    + destruct (RunFacts.run_failed _ _ _ _ Hp He Hd Hf) as (v & Hv & _).
      rewrite Hrun in Hv. discriminate.
  - destruct (RunFacts.run_fresh _ _ _ _ Hp He Hd) as (v & Hv & _).
    rewrite Hrun in Hv. injection Hv as <- _. reflexivity.
Qed.

Lemma verdict_forwards (request : Request) (user : User) (fwd : option Headers) :
  verdict request user = Next fwd ->
  fwd = Some (forwarded_headers request user) /\
  self_denied (pathname request) user = false /\
  hasPermission (user_role user) (pathname request) (method request) = true.
Proof.
  unfold verdict.
  destruct (self_denied (pathname request) user); [discriminate|].
  destruct (hasPermission _ _ _); [|discriminate].
  intros E. injection E as <-. auto.
Qed.

Lemma identity_user_id (request : Request) (user : User) :
  identity request user !! "x-user-id" = Some (JS.toString (user_id user)).
Proof.
  unfold identity.
  destruct (user_libraryId user) as [l|]; [destruct (l =? 0)|];
    rewrite ?lookup_insert_ne by discriminate; apply lookup_insert_eq.
Qed.

End ForwardFacts.

(** C7. A request for [/api/users/me] that is forwarded carries the header
    [x-requested-user-id], whose value is the id of the caller, that is of
    the user of the session that the token names. *)
Theorem me_carries_requested_user_id (request : Request) (w w' : World)
    (forwarded : option (gmap string string)) :
  pathname request = "/api/users/me"%string ->
  Bearer.middleware request w = (Return (Next forwarded), w') ->
  exists sessionToken session h,
    Bearer.bearer_token request = Some sessionToken /\
    sessions w !! sessionToken = Some session /\
    forwarded = Some h /\
    h !! "x-requested-user-id" = Some (JS.toString (user_id (session_user session))) /\
    h !! "x-user-id" = Some (JS.toString (user_id (session_user session))).
Proof.
  intros Hpath Hrun.
  assert (Hpub : Bearer.is_public (pathname request) = false)
    by (rewrite Hpath; reflexivity).
  destruct (ForwardFacts.forwarded_inv _ _ _ _ Hpub Hrun)
    as (tok & session & Hp & _ & Hv).
  apply ForwardFacts.verdict_forwards in Hv as (-> & _ & _).
  exists tok, session, (Bearer.forwarded_headers request (session_user session)).
  split; [apply Hp|]. split; [apply Hp|]. split; [reflexivity|].
  unfold Bearer.forwarded_headers. rewrite Hpath.
  change (Bearer.names_me "/api/users/me") with true. cbv iota.
  split; [apply lookup_insert_eq|].
  rewrite lookup_insert_ne by discriminate. apply ForwardFacts.identity_user_id.
Qed.

(** The client with id 7 asks for [/api/users/me]. *)
Lemma me_carries_requested_user_id_witness :
  let request := Scenario.request "/api/users/me" "GET" in
  let w := Scenario.world (Scenario.session_of Scenario.client7 (36 * Scenario.hour)) WriteOk in
  exists h,
    fst (Bearer.middleware request w) = Return (Next (Some h)) /\
    h !! "x-requested-user-id" = Some "7"%string.
Proof.
  intros request w.
  destruct (me_carries_requested_user_id request w
              (snd (Bearer.middleware request w))
              (Some (Bearer.forwarded_headers request Scenario.client7)))
    as (tok & session & h & Htok & Hrow & Hfwd & Hme & _).
  - reflexivity.
  - rewrite (surjective_pairing (Bearer.middleware request w)) at 1.
    f_equal; vm_compute; reflexivity.
  - exists h. split.
    + rewrite <- Hfwd. vm_compute. reflexivity.
    + vm_compute in Htok. injection Htok as <-.
      vm_compute in Hrow. injection Hrow as <-. exact Hme.
Defined.

Module VariantFacts.

(** The two copies of the permission table are the same table. *)
Lemma permissions_same (role : UserRole) :
  Bearer.permissions role = Cookie.permissions role.
Proof. destruct role; reflexivity. Qed.

Lemma hasPermission_same (role : UserRole) (path method : string) :
  Bearer.hasPermission role path method = Cookie.hasPermission role path method.
Proof.
  unfold Bearer.hasPermission, Cookie.hasPermission.
  rewrite permissions_same. reflexivity.
Qed.

End VariantFacts.

(** C8, as stated, fails: no role, path and method tells the two permission
    functions apart, so the variants do not differ in both respects. *)
Lemma variants_differ_in_permissions_refuted :
  ~ ((exists route, Bearer.is_public route <> Cookie.is_public route) /\
     (exists role path method,
         Bearer.hasPermission role path method
         <> Cookie.hasPermission role path method)).
Proof.
  intros [_ (role & path & method & H)].
  apply H, VariantFacts.hasPermission_same.
Qed.

(** C8, amended.  The two variants differ in their public routes only.  The
    cookie variant lists [/api/auth/login] and [/api/auth/register] and
    matches them exactly; the bearer variant lists these and six more and
    matches by prefix.  So every path that is public for the cookie variant
    is public for the bearer variant, while [/api/auth/signin] (a route of
    the longer list) and [/api/auth/login/x] (a path under a route of both
    lists) are public for the bearer variant only.  The permission tables
    are the same table, and [hasPermission] gives the same answer in both
    variants on every role, path and method. *)
Theorem variants_differ_in_public_routes_only :
  Cookie.publicRoutes = ["/api/auth/login"; "/api/auth/register"]%string /\
  Bearer.publicRoutes
  = (Cookie.publicRoutes
       ++ ["/api/auth/signin"%string; "/api/auth/callback"%string;
           "/api/auth/providers"%string; "/api/auth/session"%string;
           "/api/auth/csrf"%string; "/api/auth/debug"%string])%list /\
  (forall path, Cookie.is_public path = true <-> In path Cookie.publicRoutes) /\
  (forall path,
      Bearer.is_public path = true
      <-> exists route rest,
          In route Bearer.publicRoutes /\ path = (route ++ rest)%string) /\
  (forall path, implb (Cookie.is_public path) (Bearer.is_public path) = true) /\
  Bearer.is_public "/api/auth/signin" = true /\
  Cookie.is_public "/api/auth/signin" = false /\
  Bearer.is_public "/api/auth/login/x" = true /\
  Cookie.is_public "/api/auth/login/x" = false /\
  Bearer.permissions = Cookie.permissions /\
  (forall role path method,
      Bearer.hasPermission role path method
      = Cookie.hasPermission role path method).
Proof.
  assert (Hexact : forall path,
             Cookie.is_public path = true <-> In path Cookie.publicRoutes)
    by (intros path; apply PermissionFacts.includes_In).
  assert (Hprefix : forall path,
             Bearer.is_public path = true
             <-> exists route rest,
                 In route Bearer.publicRoutes /\ path = (route ++ rest)%string).
  { intros path. unfold Bearer.is_public, JS.some, JS.startsWith.
    rewrite existsb_exists. split.
    - intros (route & Hin & Hpre). apply StringFacts.prefix_app in Hpre.
      destruct Hpre as [rest ->]. eauto.
    - intros (route & rest & Hin & ->). exists route.
      split; [assumption | apply StringFacts.prefix_app_true]. }
  repeat match goal with |- _ /\ _ => split end;
    try reflexivity; try assumption.
  intros path. destruct (Cookie.is_public path) eqn:E; [|reflexivity].
  apply Hexact in E. cbn [implb]. apply Hprefix.
  exists path, ""%string. split.
  - unfold Bearer.publicRoutes, Cookie.publicRoutes in *.
    simpl in E |- *. tauto.
  - clear. induction path as [|c path IH]; simpl; congruence.
Qed.

(** * Every request ends in one of nine ways *)

Module OutcomeFacts.
Import Bearer StageFacts Outcomes.

Ltac same_world :=
  unfold evolve, set_sessions, set_reads, log, logs;
  cbn [sessions find_fails update_fault clock reads zone trace Nat.add];
  rewrite <- ?app_assoc; reflexivity.

Lemma find_down (request : Request) (w : World) (sessionToken : string) :
  is_public (pathname request) = false ->
  bearer_token request = Some sessionToken ->
  JS.truthy_string (Some sessionToken) = true ->
  find_fails w = true ->
  middleware request w
  = (Return failure, evolve (sessions w) 0 [EvFindUnique sessionToken; EvConsoleError] w).
Proof.
  intros Hpub Htok Htruthy Hfind. unfold middleware. rewrite Hpub, Htok.
  destruct sessionToken as [|c tok]; [discriminate|].
  unfold try_catch, authenticated, findUnique.
  unfold bind at 1. unfold bind at 1. rewrite emit_run.
  cbn [find_fails logs]. rewrite Hfind.
  unfold bind, emit, ret. f_equal; same_world.
Qed.

(** The world after a renewal, field by field. *)
Lemma run_renewed_exact (request : Request) (w : World)
    (sessionToken : string) (session : Session) :
  presents request w sessionToken session ->
  expired w session = false ->
  due w session = true ->
  update_fault w = WriteOk ->
  middleware request w
  = (Return (verdict request (session_user session)),
     evolve (write_expires (session_id session) (newExpires w) (sessions w)) 3
       (EvFindUnique sessionToken
        :: EvUpdate (session_id session) (newExpires w)
        :: proceed_events request (session_user session)) w).
Proof.
  intros Hp He Hd Hf.
  assert (Hrowid : row_exists (session_id session) (sessions w) = true)
    by (apply (RunFacts.row_exists_lookup _ sessionToken), Hp).
  rewrite (RunFacts.middleware_try _ _ _ _ Hp). unfold try_catch.
  rewrite (RunFacts.authenticated_found _ _ _ _ Hp), He.
  erewrite bind_run.
  2:{ rewrite RunFacts.refresh_due by exact Hd.
      apply RunFacts.update_written; [exact Hf | exact Hrowid]. }
  rewrite RunFacts.proceed_run.
  unfold newExpires, t_new. f_equal; same_world.
Qed.

(** The middleware always answers, in the way [answers] lists. *)
Theorem middleware_answers (request : Request) (w : World) :
  exists response w',
    middleware request w = (Return response, w') /\
    answers request w response w'.
Proof.
  destruct (is_public (pathname request)) eqn:Hpub.
  { exists (Next None), w. split; [|constructor; exact Hpub].
    unfold middleware. rewrite Hpub. reflexivity. }
  destruct (JS.truthy_string (bearer_token request)) eqn:Htruthy.
  2:{ exists unauthenticated, w. split; [|constructor; assumption].
      unfold middleware. rewrite Hpub.
      destruct (bearer_token request) as [[|c tok]|]; try reflexivity.
      discriminate. }
  destruct (bearer_token request) as [tok|] eqn:Htok; [|discriminate].
  destruct (find_fails w) eqn:Hfind.
  { eexists _, _. split; [apply (find_down _ _ tok); assumption|].
    apply (store_down _ _ tok); assumption. }
  destruct (sessions w !! tok) as [session|] eqn:Hrow.
  2:{ eexists _, _. split; [|apply (no_session _ _ tok); assumption].
      unfold middleware. rewrite Hpub, Htok.
      destruct tok as [|c tok]; [discriminate|].
      unfold try_catch, authenticated, findUnique.
      unfold bind at 1. unfold bind at 1. rewrite emit_run.
      cbn [find_fails logs sessions]. rewrite Hfind, Hrow.
      unfold ret. f_equal; same_world. }
  assert (Hp : presents request w tok session) by (repeat split; assumption).
  rewrite (RunFacts.middleware_try _ _ _ _ Hp). unfold try_catch.
  rewrite (RunFacts.authenticated_found _ _ _ _ Hp).
  destruct (expired w session) eqn:He.
  { eexists _, _. split; [|apply (session_expired _ _ tok session); assumption].
    f_equal; same_world. }
  destruct (due w session) eqn:Hd.
  - assert (Hrowid : row_exists (session_id session) (sessions w) = true)
      by (apply (RunFacts.row_exists_lookup _ tok), Hrow).
    destruct (decide (update_fault w = WriteOk)) as [Hf|Hf].
    + erewrite bind_run.
      2:{ rewrite RunFacts.refresh_due by exact Hd.
          apply RunFacts.update_written; [exact Hf | exact Hrowid]. }
      rewrite RunFacts.proceed_run.
      eexists _, _. split; [|apply (session_renewed _ _ tok session); assumption].
      unfold newExpires, t_new. f_equal; same_world.
    + unfold bind at 1. rewrite RunFacts.refresh_due by exact Hd.
      match goal with
      | |- context [update ?i ?e ?v] =>
          destruct (RunFacts.update_failed i e v Hf) as [msg Hu]
      end.
      rewrite Hu. unfold bind, emit, ret.
      eexists _, _. split; [|apply (renewal_failed _ _ tok session); assumption].
      unfold newExpires, t_new. f_equal; same_world.
  - erewrite bind_run by (apply RunFacts.refresh_fresh; exact Hd).
    rewrite RunFacts.proceed_run.
    eexists _, _. split; [|apply (session_fresh _ _ tok session); assumption].
    f_equal; same_world.
Qed.

End OutcomeFacts.

(** * What every request keeps, and what a failure means *)

Module AnswerFacts.
Import Bearer.

Lemma verdict_status (request : Request) (user : User) :
  (status (verdict request user) = 200 /\
   exists forwarded, verdict request user = Next forwarded) \/
  (status (verdict request user) = 403 /\
   forall forwarded, verdict request user <> Next forwarded).
Proof.
  unfold verdict.
  destruct (self_denied _ _); [|destruct (hasPermission _ _ _)]; simpl;
    [right|left; eauto|right]; (split; [reflexivity | discriminate]).
Qed.

End AnswerFacts.

(** X1. No exception escapes the middleware: every request is answered, with
    a forwarded request or with status 401, 403 or 500; and 500 is only
    answered when the store has failed. *)
Theorem always_answers (request : Request) (w : World) :
  exists response w',
    Bearer.middleware request w = (Return response, w') /\
    In (Bearer.status response) [200; 401; 403; 500] /\
    (Bearer.status response = 200 <-> exists forwarded, response = Next forwarded) /\
    (Bearer.status response = 500 ->
     find_fails w = true \/ update_fault w <> WriteOk).
Proof.
  destruct (OutcomeFacts.middleware_answers request w) as (response & w' & Hrun & Ha).
  exists response, w'. split; [exact Hrun|].
  assert (Hjson : forall st e m,
             In st [401; 403; 500] ->
             (st = 500 -> find_fails w = true \/ update_fault w <> WriteOk) ->
             In (Bearer.status (Json st e m)) [200; 401; 403; 500] /\
             (Bearer.status (Json st e m) = 200 <->
              exists forwarded, Json st e m = Next forwarded) /\
             (Bearer.status (Json st e m) = 500 ->
              find_fails w = true \/ update_fault w <> WriteOk)).
  { intros st e m Hin H500. simpl. split; [tauto|]. split; [|exact H500].
    split; [|intros [f Hf]; discriminate].
    intros ->. destruct Hin as [H|[H|[H|[]]]]; discriminate. }
  assert (Hverdict : forall user,
             In (Bearer.status (Bearer.verdict request user)) [200; 401; 403; 500] /\
             (Bearer.status (Bearer.verdict request user) = 200 <->
              exists forwarded, Bearer.verdict request user = Next forwarded) /\
             (Bearer.status (Bearer.verdict request user) = 500 ->
              find_fails w = true \/ update_fault w <> WriteOk)).
  { intros user.
    destruct (AnswerFacts.verdict_status request user) as [[Hs Hf]|[Hs Hf]];
      rewrite Hs; (split; [simpl; tauto|]); (split; [|discriminate]).
    - tauto.
    - split; [discriminate | intros [f E]; destruct (Hf f E)]. }
  destruct Ha as [Hpub|Hpub Htok|tok Hpub Htok Htr Hfind|tok Hpub Htok Htr Hfind Hrow
                 |tok session Hp He|tok session Hp He Hd|tok session Hp He Hd Hf
                 |tok session Hp He Hd Hf].
  - simpl. split; [tauto|]. split; [|discriminate]. split; eauto.
  - apply Hjson; [simpl; tauto | discriminate].
  - apply Hjson; [simpl; tauto | tauto].
  - apply Hjson; [simpl; tauto | discriminate].
  - apply Hjson; [simpl; tauto | discriminate].
  - apply Hverdict.
  - apply Hverdict.
  - apply Hjson; [simpl; tauto | tauto].
Qed.

Module TokenFacts.

(** Two pieces around one separator. *)
Lemma split_pair (sep : ascii) (a b : string) :
  JS.occurs sep a = false ->
  JS.split sep (a ++ String sep b) = a :: JS.split sep b.
Proof.
  induction a as [|c a IH]; simpl; intros H.
  - rewrite Ascii.eqb_refl. reflexivity.
  - apply orb_false_iff in H as [Hc Ha]. rewrite Hc, (IH Ha). reflexivity.
Qed.

Lemma split_head (sep : ascii) (s : string) :
  exists piece pieces, JS.split sep s = piece :: pieces.
Proof.
  destruct (JS.split sep s) as [|p ps] eqn:E;
    [destruct (SegmentFacts.split_nonempty _ _ E) | eauto].
Qed.

End TokenFacts.

(** X2. Public routes match by prefix and bypass everything: whatever follows
    a public route in the path, the request is forwarded as it came, without
    a look at its credentials, at the store or at the clock. *)
Theorem public_routes_bypass (request : Request) (w : World) (route rest : string) :
  In route Bearer.publicRoutes ->
  pathname request = (route ++ rest)%string ->
  Bearer.middleware request w = (Return (Next None), w).
Proof.
  intros Hin Hpath. unfold Bearer.middleware.
  assert (Hpub : Bearer.is_public (pathname request) = true).
  { unfold Bearer.is_public, JS.some. apply existsb_exists. exists route.
    split; [exact Hin|]. rewrite Hpath. apply StringFacts.prefix_app_true. }
  rewrite Hpub. reflexivity.
Qed.

Lemma public_routes_bypass_witness :
  let w := Scenario.world (Scenario.session_of Scenario.client7 0) WriteOk in
  Bearer.middleware
    {| pathname := "/api/auth/login-as-admin"; method := "POST"; headers := ∅ |} w
  = (Return (Next None), w).
Proof.
  intros w.
  apply (public_routes_bypass _ w "/api/auth/login" "-as-admin");
    [simpl; tauto | reflexivity].
Defined.



(** X4. Without a usable token nothing is looked up: when the route is not
    public and the [Authorization] header is absent, or has no space (a bare
    token), or has nothing between its first space and the next, the answer
    is 401 and the world is as it was. *)
Theorem no_token_no_lookup (request : Request) (w : World) :
  Bearer.is_public (pathname request) = false ->
  (headers request !! "authorization" = None \/
   (exists v, headers request !! "authorization" = Some v /\
              JS.occurs " " v = false) \/
   (exists scheme rest,
       headers request !! "authorization" = Some (scheme ++ " " ++ rest)%string /\
       JS.occurs " " scheme = false /\
       (rest = ""%string \/ exists r, rest = (" " ++ r)%string))) ->
  Bearer.middleware request w = (Return Bearer.unauthenticated, w) /\
  Bearer.status Bearer.unauthenticated = 401.
Proof.
  intros Hpub H. split; [|reflexivity].
  assert (Htok : Bearer.bearer_token request = None \/
                 Bearer.bearer_token request = Some ""%string).
  { unfold Bearer.bearer_token.
    destruct H as [-> | [(v & -> & Hv) | (scheme & rest & -> & Hs & Hrest)]].
    - left; reflexivity.
    - left. rewrite (SegmentFacts.split_whole _ _ Hv). reflexivity.
    - right.
      change (scheme ++ " " ++ rest)%string with (scheme ++ String " " rest)%string.
      rewrite (TokenFacts.split_pair _ _ _ Hs).
      destruct Hrest as [-> | [r ->]]; [reflexivity|].
      simpl. reflexivity. }
  unfold Bearer.middleware. rewrite Hpub.
  destruct Htok as [-> | ->]; reflexivity.
Qed.

Lemma no_token_no_lookup_witness :
  let w := Scenario.world (Scenario.session_of Scenario.client7 0) WriteOk in
  Bearer.middleware
    {| pathname := "/api/books"; method := "GET";
       headers := {[ "authorization" := "tok" ]} |} w
  = (Return Bearer.unauthenticated, w).
Proof.
  intros w.
  refine (proj1 (no_token_no_lookup _ w _ _)); [reflexivity|].
  right; left. exists "tok"%string. split; reflexivity.
Defined.

(** X5. When the lookup of the session fails, the answer is 500: the table
    is untouched, no header is set and no permission is looked up. *)
Theorem lookup_failure_is_500 (request : Request) (w : World) (sessionToken : string) :
  Bearer.is_public (pathname request) = false ->
  Bearer.bearer_token request = Some sessionToken ->
  sessionToken <> ""%string ->
  find_fails w = true ->
  exists w',
    Bearer.middleware request w = (Return Bearer.failure, w') /\
    Bearer.status Bearer.failure = 500 /\
    sessions w' = sessions w /\
    trace w' = (trace w ++ [EvFindUnique sessionToken; EvConsoleError])%list.
Proof.
  intros Hpub Htok Hne Hfind.
  assert (Htruthy : JS.truthy_string (Some sessionToken) = true)
    by (destruct sessionToken; [congruence | reflexivity]).
  eexists. split; [apply (OutcomeFacts.find_down _ _ sessionToken); assumption|].
  repeat split.
Qed.

Lemma lookup_failure_is_500_witness :
  let w :=
    {| sessions := ∅; find_fails := true; update_fault := WriteOk;
       clock := fun _ => Scenario.now; reads := 0; zone := JSDate.utc_zone;
       trace := [] |} in
  exists w',
    Bearer.middleware (Scenario.request "/api/books" "GET") w
    = (Return Bearer.failure, w').
Proof.
  intros w.
  destruct (lookup_failure_is_500 (Scenario.request "/api/books" "GET") w "tok")
    as (w' & Hrun & _); [reflexivity | reflexivity | discriminate | reflexivity |].
  exists w'. exact Hrun.
Defined.

(** * The permission table, read as a whole *)

Module TableFacts.

Lemma admin_rule (path method : string) :
  JS.startsWith path "/api/" = true ->
  In method ["GET"; "POST"; "PATCH"; "DELETE"] ->
  Bearer.hasPermission ADMIN path method = true.
Proof.
  intros Hp Hm. unfold Bearer.hasPermission, Bearer.permissions, JS.some.
  cbn [existsb rule_path rule_methods].
  rewrite RegExpFacts.test_under. unfold JS.startsWith in Hp. rewrite Hp.
  apply PermissionFacts.includes_In in Hm. rewrite Hm. reflexivity.
Qed.

(** Split a granted permission into the rule that grants it. *)
Ltac granted H :=
  repeat match type of H with
    | orb _ _ = true => apply orb_true_iff in H as [H|H]
    | andb _ _ = true =>
        let Hp := fresh "Hp" in
        let Hm := fresh "Hm" in
        apply andb_true_iff in H as [Hp Hm]
    | false = true => discriminate H
    end.

(** Read the path off a rule that matched. *)
Ltac path_of Hp :=
  repeat match type of Hp with
    | orb _ _ = true => apply orb_true_iff in Hp as [Hp|Hp]
    | String.prefix _ _ = true =>
        let rest := fresh "rest" in
        apply StringFacts.prefix_app in Hp as [rest Hp]
    | String.eqb _ _ = true => apply String.eqb_eq in Hp
    | false = true => discriminate Hp
    end.

End TableFacts.

(** X6. Whatever a role is granted, the administrator is granted too, and
    nothing is granted outside [/api/] or for a method other than GET, POST,
    PATCH and DELETE (PUT, HEAD and OPTIONS are refused to everybody). *)
Theorem administrator_dominates (role : UserRole) (path method : string) :
  Bearer.hasPermission role path method = true ->
  JS.startsWith path "/api/" = true /\
  In method ["GET"; "POST"; "PATCH"; "DELETE"] /\
  Bearer.hasPermission ADMIN path method = true.
Proof.
  intros H.
  assert (Hboth : JS.startsWith path "/api/" = true /\
                  In method ["GET"; "POST"; "PATCH"; "DELETE"]).
  { unfold JS.startsWith. destruct role; PermissionFacts.unfold_table_in H;
      TableFacts.granted H; TableFacts.path_of Hp; TableFacts.path_of Hm;
      subst path method;
      (split;
       [ first [ reflexivity
               | apply StringFacts.prefix_app; eexists; simpl; reflexivity ]
       | simpl; tauto ]). }
  destruct Hboth as [Hp Hm]. split; [exact Hp|]. split; [exact Hm|].
  apply TableFacts.admin_rule; assumption.
Qed.

Lemma administrator_dominates_witness :
  Bearer.hasPermission ADMIN "/api/books/12" "DELETE" = true.
Proof.
  apply (administrator_dominates MANAGER "/api/books/12" "DELETE"). reflexivity.
Defined.

Module UsersTableFacts.

(** Below [/api/users/] the table has one entry for those who are not
    administrators: [/api/users/me]. *)
Lemma users_permission (role : UserRole) (rest method : string) :
  role <> ADMIN ->
  Bearer.hasPermission role ("/api/users/" ++ rest) method = true ->
  rest = "me"%string.
Proof.
  intros Hrole H.
  destruct role; [congruence| | |]; PermissionFacts.unfold_table_in H;
    TableFacts.granted H; simpl in Hp; try discriminate;
    apply String.eqb_eq in Hp; exact Hp.
Qed.

End UsersTableFacts.

(** X7. Under [/api/users/] only [/api/users/me] is open to a caller who is
    not an administrator: any other path there, the caller's own id included,
    is answered with 403. *)
Theorem users_routes_closed_but_me (request : Request) (w : World)
    (sessionToken : string) (session : Session) (rest : string) :
  Bearer.authenticates request w sessionToken session ->
  user_role (session_user session) <> ADMIN ->
  pathname request = ("/api/users/" ++ rest)%string ->
  rest <> "me"%string ->
  exists response w',
    Bearer.middleware request w = (Return response, w') /\
    Bearer.status response = 403.
Proof.
  intros Hauth Hrole Hpath Hrest.
  destruct (ClaimFacts.run_authenticated _ _ _ _ Hauth) as (w' & Hrun & _).
  exists (Bearer.verdict request (session_user session)), w'.
  split; [exact Hrun|]. unfold Bearer.verdict.
  destruct (Bearer.self_denied _ _); [reflexivity|].
  destruct (Bearer.hasPermission _ _ _) eqn:Hperm; [|reflexivity].
  rewrite Hpath in Hperm.
  destruct (Hrest (UsersTableFacts.users_permission _ _ _ Hrole Hperm)).
Qed.

(** The client with id 7 asks for [/api/users/7]. *)
Lemma users_routes_closed_but_me_witness :
  exists w',
    Bearer.middleware (Scenario.request "/api/users/7" "GET")
      (Scenario.world (Scenario.session_of Scenario.client7 (36 * Scenario.hour)) WriteOk)
    = (Return Bearer.forbidden_role, w').
Proof.
  destruct (users_routes_closed_but_me
              (Scenario.request "/api/users/7" "GET")
              (Scenario.world
                 (Scenario.session_of Scenario.client7 (36 * Scenario.hour)) WriteOk)
              "tok" (Scenario.session_of Scenario.client7 (36 * Scenario.hour)) "7")
    as (response & w' & Hrun & _);
    [repeat split; reflexivity | discriminate | reflexivity | discriminate |].
  exists w'. rewrite Hrun.
  rewrite (surjective_pairing (Bearer.middleware _ _)) in Hrun.
  injection Hrun as <- _. vm_compute. reflexivity.
Defined.

(** * What is forwarded *)

Module HeaderFacts.
Import Bearer.

Lemma forwarded_not_public (request : Request) (w w' : World) (h : Headers) :
  middleware request w = (Return (Next (Some h)), w') ->
  is_public (pathname request) = false.
Proof.
  intros Hrun. destruct (is_public (pathname request)) eqn:Hpub; [|reflexivity].
  unfold middleware in Hrun. rewrite Hpub in Hrun. discriminate.
Qed.

(** A forwarded request went through [proceed] for the user of its session. *)
Lemma forwarded_by_session (request : Request) (w w' : World) (h : Headers) :
  middleware request w = (Return (Next (Some h)), w') ->
  exists sessionToken session,
    bearer_token request = Some sessionToken /\
    sessions w !! sessionToken = Some session /\
    h = forwarded_headers request (session_user session) /\
    self_denied (pathname request) (session_user session) = false /\
    hasPermission (user_role (session_user session))
      (pathname request) (method request) = true.
Proof.
  intros Hrun. pose proof (forwarded_not_public _ _ _ _ Hrun) as Hpub.
  destruct (ForwardFacts.forwarded_inv _ _ _ _ Hpub Hrun)
    as (tok & session & Hp & _ & Hv).
  apply ForwardFacts.verdict_forwards in Hv as (Hh & Hself & Hperm).
  injection Hh as ->.
  exists tok, session. repeat split; try assumption; apply Hp.
Qed.

Lemma identity_lookup_other (request : Request) (user : User) (name : string) :
  ~ In name Outcomes.identity_names ->
  identity request user !! name = headers request !! name.
Proof.
  intros Hn. unfold Outcomes.identity_names in Hn. simpl in Hn.
  unfold identity.
  destruct (user_libraryId user) as [l|]; [destruct (l =? 0)|];
    rewrite ?lookup_insert_ne by tauto; reflexivity.
Qed.

Lemma identity_user_role (request : Request) (user : User) :
  identity request user !! "x-user-role" = Some (role_name (user_role user)).
Proof.
  unfold identity.
  destruct (user_libraryId user) as [l|]; [destruct (l =? 0)|];
    rewrite ?lookup_insert_ne by discriminate; apply lookup_insert_eq.
Qed.

Lemma forwarded_lookup (request : Request) (user : User) (name : string) :
  name <> "x-requested-user-id"%string ->
  forwarded_headers request user !! name = identity request user !! name.
Proof.
  intros Hn. unfold forwarded_headers.
  destruct (names_me (pathname request)); [|reflexivity].
  apply lookup_insert_ne. congruence.
Qed.

End HeaderFacts.

(** X8. The identity that handlers see cannot be forged: in every forwarded
    request, [x-user-id] and [x-user-role] are those of the user of the
    session, and so is [x-user-library-id] when that user has a library,
    whatever the client sent under these names. *)
Theorem identity_headers_cannot_be_forged (request : Request) (w w' : World)
    (h : gmap string string) :
  Bearer.middleware request w = (Return (Next (Some h)), w') ->
  exists sessionToken session,
    Bearer.bearer_token request = Some sessionToken /\
    sessions w !! sessionToken = Some session /\
    h !! "x-user-id" = Some (JS.toString (user_id (session_user session))) /\
    h !! "x-user-role" = Some (role_name (user_role (session_user session))) /\
    (forall libraryId,
        user_libraryId (session_user session) = Some libraryId ->
        libraryId <> 0 ->
        h !! "x-user-library-id" = Some (JS.toString libraryId)).
Proof.
  intros Hrun.
  destruct (HeaderFacts.forwarded_by_session _ _ _ _ Hrun)
    as (tok & session & Htok & Hrow & -> & _ & _).
  exists tok, session. split; [exact Htok|]. split; [exact Hrow|].
  rewrite !HeaderFacts.forwarded_lookup by discriminate.
  split; [apply ForwardFacts.identity_user_id|].
  split; [apply HeaderFacts.identity_user_role|].
  intros l Hl Hne. unfold Bearer.identity. rewrite Hl.
  apply Z.eqb_neq in Hne. rewrite Hne. apply lookup_insert_eq.
Qed.

(** The client claims to be the administrator with id 1. *)
Lemma identity_headers_cannot_be_forged_witness :
  let request :=
    {| pathname := "/api/books"; method := "GET";
       headers := {[ "authorization" := "Bearer tok";
                     "x-user-id" := "1"; "x-user-role" := "ADMIN" ]} |} in
  let w := Scenario.world (Scenario.session_of Scenario.client7 (36 * Scenario.hour)) WriteOk in
  exists h,
    fst (Bearer.middleware request w) = Return (Next (Some h)) /\
    h !! "x-user-id" = Some "7"%string /\
    h !! "x-user-role" = Some "CLIENT"%string.
Proof.
  intros request w.
  destruct (identity_headers_cannot_be_forged request w
              (snd (Bearer.middleware request w))
              (Bearer.forwarded_headers request Scenario.client7))
    as (tok & session & Htok & Hrow & Hid & Hrole & _).
  - rewrite (surjective_pairing (Bearer.middleware request w)) at 1.
    f_equal; vm_compute; reflexivity.
  - exists (Bearer.forwarded_headers request Scenario.client7).
    split; [vm_compute; reflexivity|].
    vm_compute in Htok. injection Htok as <-.
    vm_compute in Hrow. injection Hrow as <-.
    split; [exact Hid | exact Hrole].
Defined.

(** X9. All other headers are forwarded as the client sent them; and so are
    [x-user-library-id], when the user has no library, and
    [x-requested-user-id], when the path does not end in [me]: under these
    two names a handler may read what the client chose. *)
Theorem other_headers_pass_through (request : Request) (w w' : World)
    (h : gmap string string) :
  Bearer.middleware request w = (Return (Next (Some h)), w') ->
  exists sessionToken session,
    Bearer.bearer_token request = Some sessionToken /\
    sessions w !! sessionToken = Some session /\
    (forall name,
        ~ In name Outcomes.identity_names ->
        h !! name = headers request !! name) /\
    (JS.truthy_number (user_libraryId (session_user session)) = false ->
     h !! "x-user-library-id" = headers request !! "x-user-library-id") /\
    (Bearer.names_me (pathname request) = false ->
     h !! "x-requested-user-id" = headers request !! "x-requested-user-id").
Proof.
  intros Hrun.
  destruct (HeaderFacts.forwarded_by_session _ _ _ _ Hrun)
    as (tok & session & Htok & Hrow & -> & _ & _).
  exists tok, session. split; [exact Htok|]. split; [exact Hrow|].
  split; [|split].
  - intros name Hn. rewrite HeaderFacts.forwarded_lookup.
    + apply HeaderFacts.identity_lookup_other, Hn.
    + intros ->. apply Hn. unfold Outcomes.identity_names. simpl. tauto.
  - intros Hlib. rewrite HeaderFacts.forwarded_lookup by discriminate.
    unfold Bearer.identity, JS.truthy_number in *.
    destruct (user_libraryId (session_user session)) as [l|].
    + apply negb_false_iff in Hlib. rewrite Hlib.
      rewrite !lookup_insert_ne by discriminate. reflexivity.
    + rewrite !lookup_insert_ne by discriminate. reflexivity.
  - intros Hme. unfold Bearer.forwarded_headers. rewrite Hme.
    unfold Bearer.identity.
    destruct (user_libraryId (session_user session)) as [l|]; [destruct (l =? 0)|];
      rewrite !lookup_insert_ne by discriminate; reflexivity.
Qed.

(** A client without a library sends a library id of its own. *)
Lemma other_headers_pass_through_witness :
  let request :=
    {| pathname := "/api/books"; method := "GET";
       headers := {[ "authorization" := "Bearer tok";
                     "x-user-library-id" := "2" ]} |} in
  let w := Scenario.world (Scenario.session_of Scenario.client7 (36 * Scenario.hour)) WriteOk in
  exists h,
    fst (Bearer.middleware request w) = Return (Next (Some h)) /\
    h !! "x-user-library-id" = Some "2"%string.
Proof.
  intros request w.
  destruct (other_headers_pass_through request w
              (snd (Bearer.middleware request w))
              (Bearer.forwarded_headers request Scenario.client7))
    as (tok & session & Htok & Hrow & _ & Hlib & _).
  - rewrite (surjective_pairing (Bearer.middleware request w)) at 1.
    f_equal; vm_compute; reflexivity.
  - exists (Bearer.forwarded_headers request Scenario.client7).
    split; [vm_compute; reflexivity|].
    vm_compute in Htok. injection Htok as <-.
    vm_compute in Hrow. injection Hrow as <-.
    rewrite Hlib by reflexivity. reflexivity.
Defined.

(** X10. Nothing but public routes and paths under [/api/] is ever
    forwarded: a public route goes through untouched, anything else that
    goes through starts with [/api/] and carries the identity headers. *)
Theorem forwards_only_public_and_api (request : Request) (w w' : World)
    (forwarded : option (gmap string string)) :
  Bearer.middleware request w = (Return (Next forwarded), w') ->
  (Bearer.is_public (pathname request) = true /\ forwarded = None /\ w' = w) \/
  (Bearer.is_public (pathname request) = false /\
   JS.startsWith (pathname request) "/api/" = true /\
   exists h, forwarded = Some h).
Proof.
  intros Hrun. destruct (Bearer.is_public (pathname request)) eqn:Hpub.
  - left. unfold Bearer.middleware in Hrun. rewrite Hpub in Hrun.
    injection Hrun as <- <-. auto.
  - right. split; [reflexivity|].
    destruct (ForwardFacts.forwarded_inv _ _ _ _ Hpub Hrun)
      as (tok & session & _ & _ & Hv).
    apply ForwardFacts.verdict_forwards in Hv as (-> & _ & Hperm).
    split; [|eauto].
    unfold JS.startsWith.
    destruct (user_role (session_user session));
      PermissionFacts.unfold_table_in Hperm;
      TableFacts.granted Hperm; TableFacts.path_of Hp;
      rewrite Hp;
      first [ reflexivity
            | apply StringFacts.prefix_app; eexists; simpl; reflexivity ].
Qed.

Lemma forwards_only_public_and_api_witness :
  JS.startsWith "/api/books" "/api/" = true.
Proof.
  pose (request := Scenario.request "/api/books" "GET").
  pose (w := Scenario.world (Scenario.session_of Scenario.client7 (36 * Scenario.hour)) WriteOk).
  destruct (forwards_only_public_and_api request w
              (snd (Bearer.middleware request w))
              (Some (Bearer.forwarded_headers request Scenario.client7)))
    as [(Hpub & _) | (_ & Hapi & _)].
  - rewrite (surjective_pairing (Bearer.middleware request w)) at 1.
    f_equal; vm_compute; reflexivity.
  - discriminate.
  - exact Hapi.
Defined.

(** * The session table across requests *)

Module TableKeeping.
Import Bearer Outcomes.

Lemma store_calls_app (t1 t2 : list Event) :
  store_calls (t1 ++ t2) = (store_calls t1 ++ store_calls t2)%list.
Proof. apply List.filter_app. Qed.

Lemma store_calls_proceed_events (request : Request) (user : User) :
  store_calls (proceed_events request user) = [].
Proof.
  unfold proceed_events, identity_events, me_events.
  rewrite store_calls_app.
  destruct (user_libraryId user) as [l|]; [destruct (l =? 0)|];
    destruct (self_denied (pathname request) user);
    try destruct (names_me (pathname request)); reflexivity.
Qed.

(** A write changes expiries only, and only in rows of the given id. *)
Lemma write_expires_row (m : gmap string Session) (id k : string) (e : Z)
    (s' : Session) :
  write_expires id e m !! k = Some s' ->
  exists s,
    m !! k = Some s /\
    session_id s' = session_id s /\
    session_user s' = session_user s /\
    (s' = s \/ (session_expires s' = e /\ session_id s = id)).
Proof.
  unfold write_expires. rewrite lookup_fmap.
  destruct (m !! k) as [s|]; [|discriminate]. simpl.
  intros E. injection E as <-. exists s. split; [reflexivity|].
  unfold has_id. destruct (String.eqb_spec (session_id s) id); auto.
Qed.

Lemma write_expires_dom (m : gmap string Session) (id : string) (e : Z) :
  dom (write_expires id e m) = dom m.
Proof. unfold write_expires. apply dom_fmap_L. Qed.

End TableKeeping.

(** X11. The middleware neither adds nor removes sessions: after any request
    the table has the same tokens, every row has its id and its user, and an
    expiry has changed only in rows of the session that the request presented,
    where it is the expiry of a renewal. *)
Theorem session_table_is_kept (request : Request) (w : World) :
  exists response w',
    Bearer.middleware request w = (Return response, w') /\
    dom (sessions w') = dom (sessions w) /\
    forall sessionToken s',
      sessions w' !! sessionToken = Some s' ->
      exists s,
        sessions w !! sessionToken = Some s /\
        session_id s' = session_id s /\
        session_user s' = session_user s /\
        (s' = s \/
         (session_expires s' = Bearer.newExpires w /\
          exists presented session,
            Bearer.bearer_token request = Some presented /\
            sessions w !! presented = Some session /\
            session_id s = session_id session)).
Proof.
  destruct (OutcomeFacts.middleware_answers request w) as (response & w' & Hrun & Ha).
  exists response, w'. split; [exact Hrun|].
  assert (Hsame : sessions w' = sessions w ->
                  dom (sessions w') = dom (sessions w) /\
                  forall sessionToken s',
                    sessions w' !! sessionToken = Some s' ->
                    exists s,
                      sessions w !! sessionToken = Some s /\
                      session_id s' = session_id s /\
                      session_user s' = session_user s /\
                      (s' = s \/
                       (session_expires s' = Bearer.newExpires w /\
                        exists presented session,
                          Bearer.bearer_token request = Some presented /\
                          sessions w !! presented = Some session /\
                          session_id s = session_id session))).
  { intros ->. split; [reflexivity|]. intros k s' Hk. exists s'. auto. }
  assert (Hwritten : forall presented session,
             Bearer.presents request w presented session ->
             sessions w'
             = write_expires (session_id session) (Bearer.newExpires w) (sessions w) ->
             dom (sessions w') = dom (sessions w) /\
             forall sessionToken s',
               sessions w' !! sessionToken = Some s' ->
               exists s,
                 sessions w !! sessionToken = Some s /\
                 session_id s' = session_id s /\
                 session_user s' = session_user s /\
                 (s' = s \/
                  (session_expires s' = Bearer.newExpires w /\
                   exists presented session,
                     Bearer.bearer_token request = Some presented /\
                     sessions w !! presented = Some session /\
                     session_id s = session_id session))).
  { intros presented session Hp ->. split; [apply TableKeeping.write_expires_dom|].
    intros k s' Hk.
    destruct (TableKeeping.write_expires_row _ _ _ _ _ Hk)
      as (s & Hs & Hid & Huser & Hcase).
    exists s. repeat split; try assumption.
    destruct Hcase as [-> | [He Hids]]; [left; reflexivity|].
    right. split; [exact He|]. exists presented, session.
    split; [apply Hp|]. split; [apply Hp | exact Hids]. }
  destruct Ha as [Hpub|Hpub Htok|tok Hpub Htok Htr Hfind|tok Hpub Htok Htr Hfind Hrow
                 |tok session Hp He|tok session Hp He Hd|tok session Hp He Hd Hf
                 |tok session Hp He Hd Hf];
    try (apply Hsame; reflexivity).
  - apply (Hwritten tok session Hp). reflexivity.
  - destruct (update_fault w) eqn:Hfault.
    + congruence.
    + apply Hsame. reflexivity.
    + apply (Hwritten tok session Hp). reflexivity.
Qed.

(** X12. One request reaches the store at most twice, first with the lookup
    of the session and then with at most one write, and reads the clock at
    most three times. *)
Theorem one_lookup_one_write (request : Request) (w : World) :
  exists response w' events,
    Bearer.middleware request w = (Return response, w') /\
    trace w' = (trace w ++ events)%list /\
    (Outcomes.store_calls events = [] \/
     (exists sessionToken,
         Outcomes.store_calls events = [EvFindUnique sessionToken]) \/
     (exists sessionToken id expires,
         Outcomes.store_calls events
         = [EvFindUnique sessionToken; EvUpdate id expires])) /\
    (reads w <= reads w' <= reads w + 3)%nat.
Proof.
  destruct (OutcomeFacts.middleware_answers request w) as (response & w' & Hrun & Ha).
  exists response, w'.
  destruct Ha as [Hpub|Hpub Htok|tok Hpub Htok Htr Hfind|tok Hpub Htok Htr Hfind Hrow
                 |tok session Hp He|tok session Hp He Hd|tok session Hp He Hd Hf
                 |tok session Hp He Hd Hf].
  1,2: exists []; split; [exact Hrun|]; split; [symmetry; apply app_nil_r|];
       split; [left; reflexivity | lia].
  all: eexists; split; [exact Hrun|]; split; [reflexivity|];
       (split; [|cbn; lia]).
  - right; left. eexists. reflexivity.
  - right; left. eexists. reflexivity.
  - right; left. eexists. reflexivity.
  - right; left. exists tok. cbn [Outcomes.store_calls List.filter Outcomes.is_find
      Bearer.is_update orb].
    fold (Outcomes.store_calls (Bearer.proceed_events request (session_user session))).
    rewrite TableKeeping.store_calls_proceed_events. reflexivity.
  - right; right. exists tok, (session_id session), (Bearer.newExpires w).
    cbn [Outcomes.store_calls List.filter Outcomes.is_find Bearer.is_update orb].
    fold (Outcomes.store_calls (Bearer.proceed_events request (session_user session))).
    rewrite TableKeeping.store_calls_proceed_events. reflexivity.
  - right; right. eexists _, _, _. reflexivity.
Qed.

(** X13. A renewal only extends: with a clock that does not run backwards
    and a zone of fixed offset, the expiry that a renewal stores is more than
    29 days after the one it replaces. *)
Theorem renewal_only_extends (request : Request) (w : World)
    (sessionToken : string) (session : Session) :
  Bearer.presents request w sessionToken session ->
  Bearer.t_check w <= session_expires session ->
  session_expires session - Bearer.t_renew w < 86400000 ->
  update_fault w = WriteOk ->
  JSDate.fixed_offset (zone w) ->
  Bearer.t_renew w <= Bearer.t_new w ->
  exists response w' renewed,
    Bearer.middleware request w = (Return response, w') /\
    sessions w' !! sessionToken = Some renewed /\
    session_expires session + 29 * 86400000 < session_expires renewed.
Proof.
  intros Hp Hvalid Hlt Hf Hzone Hclock.
  assert (He : Bearer.expired w session = false) by (apply Z.ltb_ge, Hvalid).
  apply ClaimFacts.due_lt in Hlt as Hd.
  destruct (RunFacts.run_renewed _ _ _ _ Hp He Hd Hf) as (w' & Hrun & Hs & _).
  exists (Bearer.verdict request (session_user session)), w',
    (with_expires (Bearer.newExpires w) session).
  split; [exact Hrun|]. split.
  - rewrite Hs. apply RunFacts.write_expires_lookup, Hp.
  - cbn [with_expires session_expires].
    unfold Bearer.newExpires.
    rewrite (DateFacts.setDate_getDate_fixed _ _ 30 Hzone).
    unfold JSDate.msPerDay. lia.
Qed.

Lemma renewal_only_extends_witness :
  let session := Scenario.session_of Scenario.client7 (12 * Scenario.hour) in
  exists response w' renewed,
    Bearer.middleware (Scenario.request "/api/books" "GET")
      (Scenario.world session WriteOk) = (Return response, w') /\
    sessions w' !! "tok" = Some renewed /\
    session_expires session + 29 * 86400000 < session_expires renewed.
Proof.
  intros session.
  apply (renewal_only_extends (Scenario.request "/api/books" "GET")
           (Scenario.world session WriteOk) "tok" session).
  - repeat split; reflexivity.
  - vm_compute. discriminate.
  - vm_compute. reflexivity.
  - reflexivity.
  - exists 0. reflexivity.
  - vm_compute. discriminate.
Defined.

(** X14. A renewed session is left alone by the next request, in a time
    zone of fixed offset.  A request renews a valid session that has less
    than a day left, and the write succeeds.  When the zone has one offset
    from UTC at all times ([JSDate.fixed_offset]; across a change of offset
    [setDate] need not give thirty times 24 hours), a following request with
    the same token for a route that is not public, whose two readings of the
    clock do not go backwards, are not before the [new Date()] of the
    renewal and are at most 29 days after it, gets the verdict of the same
    user without another write, and the table stays as it is. *)
Theorem renewed_session_is_not_renewed_again (request next : Request)
    (w w1 : World) (sessionToken : string) (session : Session)
    (response : Response) :
  Bearer.presents request w sessionToken session ->
  Bearer.t_check w <= session_expires session ->
  session_expires session - Bearer.t_renew w < 86400000 ->
  update_fault w = WriteOk ->
  JSDate.fixed_offset (zone w) ->
  Bearer.middleware request w = (Return response, w1) ->
  Bearer.is_public (pathname next) = false ->
  Bearer.bearer_token next = Some sessionToken ->
  Bearer.t_new w <= Bearer.t_check w1 ->
  Bearer.t_check w1 <= Bearer.t_renew w1 ->
  Bearer.t_renew w1 <= Bearer.t_new w + 29 * 86400000 ->
  exists w2,
    Bearer.middleware next w1
    = (Return (Bearer.verdict next (session_user session)), w2) /\
    sessions w2 = sessions w1 /\
    Bearer.updates (trace w2) = Bearer.updates (trace w1).
Proof.
  intros Hp Hvalid Hlt Hf Hzone Hrun Hpub Htok Hc1 Hc2 Hc3.
  assert (He : Bearer.expired w session = false) by (apply Z.ltb_ge, Hvalid).
  apply ClaimFacts.due_lt in Hlt as Hd.
  rewrite (OutcomeFacts.run_renewed_exact _ _ _ _ Hp He Hd Hf) in Hrun.
  injection Hrun as <- <-.
  set (w1 := Outcomes.evolve _ _ _ w) in *.
  set (renewed := with_expires (Bearer.newExpires w) session).
  assert (Hnew : Bearer.newExpires w = Bearer.t_new w + 30 * 86400000)
    by apply (DateFacts.setDate_getDate_fixed _ _ 30 Hzone).
  assert (Hp1 : Bearer.presents next w1 sessionToken renewed).
  { destruct Hp as (_ & _ & Htr & Hfind & Hrow).
    repeat split; try assumption.
    apply RunFacts.write_expires_lookup, Hrow. }
  assert (He1 : Bearer.expired w1 renewed = false).
  { apply Z.ltb_ge. cbn [renewed with_expires session_expires]. lia. }
  assert (Hd1 : Bearer.due w1 renewed = false).
  { apply ClaimFacts.due_ge. cbn [renewed with_expires session_expires]. lia. }
  destruct (RunFacts.run_fresh _ _ _ _ Hp1 He1 Hd1) as (w2 & Hrun2 & Hs2 & Ht2).
  exists w2. split; [exact Hrun2|]. split; [exact Hs2|].
  rewrite Ht2, TraceFacts.updates_app.
  cbn [Bearer.updates List.filter Bearer.is_update].
  fold (Bearer.updates (Bearer.proceed_events next (session_user renewed))).
  rewrite TraceFacts.updates_proceed_events. apply app_nil_r.
Qed.

(** Twelve hours left, then the same request once more. *)
Lemma renewed_session_is_not_renewed_again_witness :
  let request := Scenario.request "/api/books" "GET" in
  let session := Scenario.session_of Scenario.client7 (12 * Scenario.hour) in
  let w := Scenario.world session WriteOk in
  let w1 := snd (Bearer.middleware request w) in
  exists w2,
    Bearer.middleware request w1
    = (Return (Bearer.verdict request Scenario.client7), w2) /\
    sessions w2 = sessions w1.
Proof.
  intros request session w w1.
  destruct (renewed_session_is_not_renewed_again request request w w1 "tok" session
              (Bearer.verdict request Scenario.client7))
    as (w2 & Hrun & Hs & _).
  - repeat split; reflexivity.
  - vm_compute. discriminate.
  - vm_compute. reflexivity.
  - reflexivity.
  - exists 0. reflexivity.
  - rewrite (surjective_pairing (Bearer.middleware request w)) at 1.
    f_equal; vm_compute; reflexivity.
  - reflexivity.
  - reflexivity.
  - vm_compute. discriminate.
  - vm_compute. discriminate.
  - vm_compute. discriminate.
  - exists w2. split; [exact Hrun | exact Hs].
Defined.

(** * The cookie variant *)

Module CookieFacts.
Import CookieVariant StageFacts.

(** What is public for the cookie variant is public for the bearer variant. *)
Lemma cookie_public_bearer_public (path : string) :
  Cookie.is_public path = true -> Bearer.is_public path = true.
Proof.
  unfold Cookie.is_public, Cookie.publicRoutes, JS.includes. cbn [existsb].
  rewrite !orb_true_iff.
  intros [H|[H|H]]; try discriminate; apply String.eqb_eq in H; subst; reflexivity.
Qed.

Section Verified.

Variable verifyToken : string -> M (option User).

(** Once the token is verified, the cookie variant goes on exactly as the
    bearer variant does after the renewal. *)
Lemma authenticated_verified (request : Request) (token : string) (user : User)
    (w v : World) :
  verifyToken token w = (Return (Some user), v) ->
  authenticated verifyToken request token w = Bearer.proceed request user v.
Proof.
  intros Hv. unfold authenticated. rewrite (bind_run _ _ _ _ _ Hv).
  unfold Bearer.proceed, Bearer.attach, Bearer.users_route, Bearer.authorize,
    Bearer.isSelfAccess, Bearer.userIdInPath, check.
  unfold forbidden_self, forbidden_role, Bearer.forbidden_self, Bearer.forbidden_role.
  rewrite <- VariantFacts.hasPermission_same.
  unfold bind, set, emit, ret.
  destruct (user_libraryId user) as [l|]; [destruct (l =? 0)|];
    destruct (JS.startsWith (pathname request) "/api/users/");
    try destruct (negb _);
    try destruct (strict_eq (JS.pop (JS.split "/" (pathname request))) "me");
    reflexivity.
Qed.

Lemma authenticated_rejected (request : Request) (token : string) (w v : World) :
  verifyToken token w = (Return None, v) ->
  authenticated verifyToken request token w = (Throw "Utilisateur invalide", v).
Proof. intros Hv. unfold authenticated. rewrite (bind_run _ _ _ _ _ Hv). reflexivity. Qed.

Lemma authenticated_thrown (request : Request) (token e : string) (w v : World) :
  verifyToken token w = (Throw e, v) ->
  authenticated verifyToken request token w = (Throw e, v).
Proof. intros Hv. unfold authenticated. apply bind_throw, Hv. Qed.

Lemma middleware_token (cookies : gmap string string) (request : Request)
    (token : string) :
  Cookie.is_public (pathname request) = false ->
  cookies !! "auth-token" = Some token ->
  token <> ""%string ->
  middleware verifyToken cookies request
  = try_catch (authenticated verifyToken request token)
      (fun _ => ret token_invalid).
Proof.
  intros Hpub Htok Hne. unfold middleware. rewrite Hpub, Htok.
  destruct token; [congruence | reflexivity].
Qed.

End Verified.

End CookieFacts.

(** X15. The cookie variant never answers 500: every request is answered,
    whatever [verifyToken] does, with a forwarded request or with 401 or 403;
    and a token that [verifyToken] refuses, by answering [null] or by throwing,
    is answered with 401 before any header is set. *)
Theorem cookie_variant_never_answers_500 (verifyToken : string -> M (option User))
    (cookies : gmap string string) (request : Request) (w : World) :
  exists response w',
    CookieVariant.middleware verifyToken cookies request w = (Return response, w') /\
    In (Bearer.status response) [200; 401; 403] /\
    (forall token v,
        Cookie.is_public (pathname request) = false ->
        cookies !! "auth-token" = Some token ->
        token <> ""%string ->
        (verifyToken token w = (Return None, v) \/
         exists e, verifyToken token w = (Throw e, v)) ->
        response = CookieVariant.token_invalid /\ w' = v).
Proof.
  destruct (Cookie.is_public (pathname request)) eqn:Hpub.
  { exists (Next None), w. split; [|split; [simpl; tauto | discriminate]].
    unfold CookieVariant.middleware. rewrite Hpub. reflexivity. }
  destruct (cookies !! "auth-token") as [token|] eqn:Htok.
  2:{ exists CookieVariant.unauthenticated, w.
      split; [|split; [simpl; tauto | discriminate]].
      unfold CookieVariant.middleware. rewrite Hpub, Htok. reflexivity. }
  destruct (decide (token = ""%string)) as [->|Hne].
  { exists CookieVariant.unauthenticated, w.
    split; [|split; [simpl; tauto|]].
    - unfold CookieVariant.middleware. rewrite Hpub, Htok. reflexivity.
    - intros token v _ E Hne. injection E as <-. congruence. }
  rewrite (CookieFacts.middleware_token verifyToken _ _ token Hpub Htok Hne).
  unfold try_catch.
  destruct (verifyToken token w) as [[[user|]|e] v] eqn:Hv.
  - rewrite (CookieFacts.authenticated_verified _ _ _ _ _ _ Hv), RunFacts.proceed_run.
    eexists _, _. split; [reflexivity|]. split.
    + destruct (AnswerFacts.verdict_status request user) as [[-> _]|[-> _]];
        simpl; tauto.
    + intros token' v' _ E _ [H|[e H]]; injection E as <-; congruence.
  - rewrite (CookieFacts.authenticated_rejected _ _ _ _ _ Hv).
    eexists _, _. split; [reflexivity|]. split; [simpl; tauto|].
    intros token' v' _ E _ H. injection E as <-.
    split; [reflexivity|]. destruct H as [H|[e H]]; congruence.
  - rewrite (CookieFacts.authenticated_thrown _ _ _ _ _ _ Hv).
    eexists _, _. split; [reflexivity|]. split; [simpl; tauto|].
    intros token' v' _ E _ H. injection E as <-.
    split; [reflexivity|]. destruct H as [H|[e' H]]; congruence.
Qed.

(** X16. After authentication the two variants decide alike: for one request
    and one user, authenticated there by the session and here by the cookie,
    they give the same answer, with the same headers when they forward. *)
Theorem variants_agree_on_authorization
    (verifyToken : string -> M (option User)) (cookies : gmap string string)
    (request : Request) (w v : World) (token : string)
    (wb : World) (sessionToken : string) (session : Session) :
  Bearer.authenticates request wb sessionToken session ->
  cookies !! "auth-token" = Some token ->
  token <> ""%string ->
  verifyToken token w = (Return (Some (session_user session)), v) ->
  exists response wb' w',
    Bearer.middleware request wb = (Return response, wb') /\
    CookieVariant.middleware verifyToken cookies request w = (Return response, w') /\
    response = Bearer.verdict request (session_user session) /\
    Bearer.lookups (trace w')
    = (Bearer.lookups (trace v)
       ++ Bearer.lookups (Bearer.proceed_events request (session_user session)))%list.
Proof.
  intros Hauth Htok Hne Hv.
  destruct (ClaimFacts.run_authenticated _ _ _ _ Hauth) as (wb' & Hrun & _).
  assert (Hpub : Cookie.is_public (pathname request) = false).
  { destruct (Cookie.is_public (pathname request)) eqn:E; [|reflexivity].
    apply CookieFacts.cookie_public_bearer_public in E.
    destruct Hauth as ((Hb & _) & _). congruence. }
  eexists _, wb', _. split; [exact Hrun|].
  rewrite (CookieFacts.middleware_token verifyToken _ _ token Hpub Htok Hne).
  unfold try_catch.
  rewrite (CookieFacts.authenticated_verified _ _ _ _ _ _ Hv), RunFacts.proceed_run.
  split; [reflexivity|]. split; [reflexivity|].
  cbn [trace logs]. apply TraceFacts.lookups_app.
Qed.

(** A verifier that knows one token. *)
Lemma variants_agree_on_authorization_witness :
  let verifyToken : string -> M (option User) :=
    fun token => ret (if String.eqb token "jwt" then Some Scenario.client7 else None) in
  let request := Scenario.request "/api/users/me" "PATCH" in
  let w := Scenario.world (Scenario.session_of Scenario.client7 (36 * Scenario.hour)) WriteOk in
  exists response,
    fst (Bearer.middleware request w) = Return response /\
    fst (CookieVariant.middleware verifyToken {[ "auth-token" := "jwt" ]} request w)
    = Return response.
Proof.
  intros verifyToken request w.
  destruct (variants_agree_on_authorization verifyToken {[ "auth-token" := "jwt" ]}
              request w w "jwt" w "tok"
              (Scenario.session_of Scenario.client7 (36 * Scenario.hour)))
    as (response & wb' & w' & Hb & Hc & _).
  - repeat split; reflexivity.
  - reflexivity.
  - discriminate.
  - reflexivity.
  - exists response. rewrite Hb, Hc. split; reflexivity.
Defined.

(** * From the middleware to the handlers *)

Module ParseFacts.
Import JSNumber.

Ltac decimal_digits :=
  repeat (
      change (digit 10 "0") with (Some 0) || change (digit 10 "1") with (Some 1)
      || change (digit 10 "2") with (Some 2) || change (digit 10 "3") with (Some 3)
      || change (digit 10 "4") with (Some 4) || change (digit 10 "5") with (Some 5)
      || change (digit 10 "6") with (Some 6) || change (digit 10 "7") with (Some 7)
      || change (digit 10 "8") with (Some 8) || change (digit 10 "9") with (Some 9));
  cbv iota beta.

Lemma digits_uint (d : Decimal.uint) (acc : Z) :
  digits 10 (NilEmpty.string_of_uint d) (Some acc) = Some (uint_value d acc).
Proof.
  revert acc. induction d; intros acc; simpl NilEmpty.string_of_uint;
    [reflexivity | ..];
    cbn [digits]; decimal_digits; rewrite IHd; reflexivity.
Qed.

Lemma uint_value_pos (d : Decimal.uint) (acc : positive) :
  uint_value d (Z.pos acc) = Z.pos (Pos.of_uint_acc d acc).
Proof.
  revert acc. induction d; intros acc; simpl; [reflexivity | ..];
    try (rewrite <- IHd; f_equal; lia).
Qed.

Lemma uint_value_zero (d : Decimal.uint) :
  uint_value d 0 = Z.of_N (Pos.of_uint d).
Proof.
  induction d; simpl; [reflexivity | exact IHd | ..].
  all: match goal with
       | |- uint_value _ ?k = _ =>
           let p := eval vm_compute in k in change k with p
       end; apply uint_value_pos.
Qed.

Lemma uint_value_to_uint (p : positive) : uint_value (Pos.to_uint p) 0 = Z.pos p.
Proof. rewrite uint_value_zero, Unsigned.of_to. reflexivity. Qed.

(** Nothing is trimmed before an ASCII character that is no white space. *)
Lemma trimStart_plain (c : ascii) (s : string) :
  is_whitespace c = false ->
  (nat_of_ascii c <? 128)%nat = true ->
  trimStart (String c s) = String c s.
Proof.
  intros Hc Hascii. cbn [trimStart]. rewrite Hc.
  assert (H2 : forall c2, is_whitespace2 c c2 = false).
  { intros c2. unfold is_whitespace2.
    destruct (Ascii.eqb_spec c "194") as [-> | _]; [discriminate | reflexivity]. }
  assert (H3 : forall c2 c3, is_whitespace3 c c2 c3 = false).
  { intros c2 c3. unfold is_whitespace3.
    destruct (Ascii.eqb_spec c "225") as [-> | _]; [discriminate|].
    destruct (Ascii.eqb_spec c "226") as [-> | _]; [discriminate|].
    destruct (Ascii.eqb_spec c "227") as [-> | _]; [discriminate|].
    destruct (Ascii.eqb_spec c "239") as [-> | _]; [discriminate|].
    reflexivity. }
  destruct s as [|c2 [|c3 s3]]; rewrite ?H2, ?H3; reflexivity.
Qed.

Ltac read_numeral :=
  unfold parseInt; simpl NilEmpty.string_of_uint;
  rewrite trimStart_plain by reflexivity; cbv iota beta.

(** A numeral that does not start with a sign, a blank or [0x] is read as a
    whole. *)
Lemma parseInt_uint (d : Decimal.uint) :
  d <> Decimal.Nil ->
  uint_value d 0 <= max_exact ->
  parseInt (NilEmpty.string_of_uint d) = Int (uint_value d 0).
Proof.
  intros Hd Hmax. apply Z.ltb_ge in Hmax.
  destruct d as [|d|d|d|d|d|d|d|d|d|d]; [congruence | ..].
  1: destruct d.
  all: cbn [uint_value] in Hmax.
  all: read_numeral.
  all: try reflexivity.
  all: cbn [digits]; decimal_digits; rewrite digits_uint; cbn [uint_value];
    rewrite Hmax; change (1 =? -1) with false; cbn [andb]; f_equal; lia.
Qed.

Lemma parseInt_minus_uint (d : Decimal.uint) :
  d <> Decimal.Nil ->
  0 < uint_value d 0 <= max_exact ->
  parseInt (String "-" (NilEmpty.string_of_uint d)) = Int (- uint_value d 0).
Proof.
  intros Hd [Hpos Hmax]. apply Z.ltb_ge in Hmax.
  destruct d as [|d|d|d|d|d|d|d|d|d|d]; [congruence | ..].
  1: destruct d.
  all: cbn [uint_value] in Hmax, Hpos.
  all: try (exfalso; clear -Hpos; lia).
  all: read_numeral.
  all: cbn [digits]; decimal_digits; rewrite digits_uint; cbn [uint_value];
    rewrite Hmax;
    match goal with
    | |- context [?v =? 0] => destruct (Z.eqb_spec v 0) as [E|_]
    end;
    [exfalso; rewrite E in Hpos; clear -Hpos; lia
    | cbn [andb Z.eqb]; f_equal; lia].
Qed.

(** Reading back what was printed, for the integers that are doubles. *)
Lemma parseInt_printed (n : Z) :
  safe_integer n = true -> parseInt (JS.toString n) = Int n.
Proof.
  unfold safe_integer. intros Hsafe.
  apply andb_true_iff in Hsafe as [Hlo Hhi].
  apply Z.ltb_lt in Hlo, Hhi.
  unfold JS.toString, NilZero.string_of_int, NilZero.string_of_uint.
  destruct n as [|p|p]; simpl Z.to_int.
  - reflexivity.
  - pose proof (Unsigned.to_uint_nonnil p) as Hne.
    pose proof (uint_value_to_uint p) as Hv.
    destruct (Pos.to_uint p) eqn:E; [congruence | ..];
      rewrite <- E in *; rewrite parseInt_uint by (assumption || lia);
      rewrite Hv; reflexivity.
  - pose proof (Unsigned.to_uint_nonnil p) as Hne.
    pose proof (uint_value_to_uint p) as Hv.
    destruct (Pos.to_uint p) eqn:E; [congruence | ..];
      rewrite <- E in *; rewrite parseInt_minus_uint by (assumption || lia);
      rewrite Hv; reflexivity.
Qed.

End ParseFacts.

Module GuardFacts.
Import UserRoutes.

Lemma truthy_toString (n : Z) : JS.truthy_string (Some (JS.toString n)) = true.
Proof.
  pose proof (SegmentFacts.toString_nonempty n) as H.
  destruct (JS.toString n); [congruence | reflexivity].
Qed.

Lemma truthy_role_name (role : UserRole) :
  JS.truthy_string (Some (role_name role)) = true.
Proof. destruct role; reflexivity. Qed.

Lemma role_name_admin (role : UserRole) :
  String.eqb (role_name role) (role_name ADMIN) = role_eqb role ADMIN.
Proof. destruct role; reflexivity. Qed.

(** The two guards on headers that carry the identity of [user]. *)
Lemma GET_guard_identity (h : Headers) (user : User) (id : string) :
  h !! "x-user-id" = Some (JS.toString (user_id user)) ->
  h !! "x-user-role" = Some (role_name (user_role user)) ->
  GET_guard h id
  = if negb (String.eqb id "me" || String.eqb (JS.toString (user_id user)) id)
       && negb (role_eqb (user_role user) ADMIN)
    then Refuse 403 "Accès non autorisé"
    else Target (JSNumber.parseInt
                   (if String.eqb id "me" then JS.toString (user_id user) else id)).
Proof.
  intros Hid Hrole. unfold GET_guard. rewrite Hid, Hrole.
  rewrite truthy_toString, truthy_role_name. cbn [negb orb strict_eq].
  rewrite role_name_admin. destruct (String.eqb id "me"); reflexivity.
Qed.

Lemma POST_guard_identity (h : Headers) (user : User) (id : string) :
  h !! "x-user-id" = Some (JS.toString (user_id user)) ->
  h !! "x-user-role" = Some (role_name (user_role user)) ->
  POST_guard h id
  = if negb (String.eqb id "me" || String.eqb (JS.toString (user_id user)) id)
    then Refuse 403 "Vous ne pouvez marquer que vos propres notifications comme lues"
    else Target (JSNumber.parseInt (JS.toString (user_id user))).
Proof.
  intros Hid Hrole. unfold POST_guard. rewrite Hid, Hrole.
  rewrite truthy_toString, truthy_role_name. cbn [negb orb strict_eq].
  reflexivity.
Qed.

Lemma forwarded_identity (request : Request) (user : User) :
  Bearer.forwarded_headers request user !! "x-user-id"
  = Some (JS.toString (user_id user)) /\
  Bearer.forwarded_headers request user !! "x-user-role"
  = Some (role_name (user_role user)).
Proof.
  rewrite !HeaderFacts.forwarded_lookup by discriminate.
  split; [apply ForwardFacts.identity_user_id | apply HeaderFacts.identity_user_role].
Qed.

End GuardFacts.

(** X17. The id of the caller survives the trip through the headers.  When
    a request is forwarded for a session whose user has a safe integer as id
    (below 2^53 in absolute value, so that it is a double and prints without
    an exponent, as every integer column of the database does), the
    forwarded [x-user-id] is a string of which [parseInt], as the handlers
    call it, is that id. *)
Theorem forwarded_user_id_parses_back (request : Request) (w w' : World)
    (h : gmap string string) (sessionToken : string) (session : Session) :
  Bearer.bearer_token request = Some sessionToken ->
  sessions w !! sessionToken = Some session ->
  JSNumber.safe_integer (user_id (session_user session)) = true ->
  Bearer.middleware request w = (Return (Next (Some h)), w') ->
  exists currentUserId,
    h !! "x-user-id" = Some currentUserId /\
    JSNumber.parseInt currentUserId
    = JSNumber.Int (user_id (session_user session)).
Proof.
  intros Htok Hrow Hsafe Hrun.
  destruct (HeaderFacts.forwarded_by_session _ _ _ _ Hrun)
    as (tok & session' & Htok' & Hrow' & -> & _ & _).
  assert (tok = sessionToken) as -> by congruence.
  assert (session' = session) as -> by congruence.
  exists (JS.toString (user_id (session_user session))).
  split; [apply GuardFacts.forwarded_identity|].
  apply ParseFacts.parseInt_printed, Hsafe.
Qed.

(** Client 7 asks for the books. *)
Lemma forwarded_user_id_parses_back_witness :
  let request := Scenario.request "/api/books" "GET" in
  let session := Scenario.session_of Scenario.client7 (36 * Scenario.hour) in
  let w := Scenario.world session WriteOk in
  exists h currentUserId,
    fst (Bearer.middleware request w) = Return (Next (Some h)) /\
    h !! "x-user-id" = Some currentUserId /\
    JSNumber.parseInt currentUserId = JSNumber.Int 7.
Proof.
  intros request session w.
  exists (Bearer.forwarded_headers request Scenario.client7).
  destruct (forwarded_user_id_parses_back request w
              (snd (Bearer.middleware request w))
              (Bearer.forwarded_headers request Scenario.client7)
              "tok" session)
    as (currentUserId & Hid & Hparse).
  - reflexivity.
  - reflexivity.
  - reflexivity.
  - rewrite (surjective_pairing (Bearer.middleware request w)) at 1.
    f_equal; vm_compute; reflexivity.
  - exists currentUserId.
    split; [vm_compute; reflexivity|]. split; [exact Hid | exact Hparse].
Defined.

(** X18. Behind the middleware the guards of the handlers under
    [/api/users/[id]/] never answer 401.  For a user whose id is a safe
    integer, the guard of the [GET] handlers (penalties, logs,
    notifications) and the guard of the [POST] handler (notifications) both
    resolve [me] and the caller's own id to the user of the session; for
    another id the guard of the [GET] handlers answers 403 unless that user
    is an administrator, for whom it targets [parseInt(id)], and the guard
    of the [POST] handler answers 403 for everybody, administrators
    included. *)
Theorem guards_behind_middleware (request : Request) (w w' : World)
    (h : gmap string string) :
  Bearer.middleware request w = (Return (Next (Some h)), w') ->
  exists sessionToken session,
    Bearer.bearer_token request = Some sessionToken /\
    sessions w !! sessionToken = Some session /\
    let user := session_user session in
    (forall id error,
        UserRoutes.GET_guard h id <> UserRoutes.Refuse 401 error /\
        UserRoutes.POST_guard h id <> UserRoutes.Refuse 401 error) /\
    (JSNumber.safe_integer (user_id user) = true ->
     (forall id,
         id = "me"%string \/ id = JS.toString (user_id user) ->
         UserRoutes.GET_guard h id
         = UserRoutes.Target (JSNumber.Int (user_id user)) /\
         UserRoutes.POST_guard h id
         = UserRoutes.Target (JSNumber.Int (user_id user))) /\
     (forall id,
         id <> "me"%string -> id <> JS.toString (user_id user) ->
         UserRoutes.GET_guard h id
         = (if role_eqb (user_role user) ADMIN
            then UserRoutes.Target (JSNumber.parseInt id)
            else UserRoutes.Refuse 403 "Accès non autorisé") /\
         UserRoutes.POST_guard h id
         = UserRoutes.Refuse 403
             "Vous ne pouvez marquer que vos propres notifications comme lues")).
Proof.
  intros Hrun.
  destruct (HeaderFacts.forwarded_by_session _ _ _ _ Hrun)
    as (tok & session & Htok & Hrow & -> & _ & _).
  exists tok, session. split; [exact Htok|]. split; [exact Hrow|].
  intros user.
  destruct (GuardFacts.forwarded_identity request user) as [Hid Hrole].
  split; [|intros Hsafe; split].
  - intros id error.
    rewrite (GuardFacts.GET_guard_identity _ user) by assumption.
    rewrite (GuardFacts.POST_guard_identity _ user) by assumption.
    split; [destruct (_ && _) | destruct (negb _)]; discriminate.
  - intros id Hown.
    rewrite (GuardFacts.GET_guard_identity _ user) by assumption.
    rewrite (GuardFacts.POST_guard_identity _ user) by assumption.
    pose proof (ParseFacts.parseInt_printed _ Hsafe) as Hparse.
    destruct Hown as [-> | ->].
    + change (String.eqb "me" "me") with true. cbn [orb negb andb].
      rewrite Hparse. split; reflexivity.
    + rewrite String.eqb_refl, orb_true_r. cbn [negb andb].
      destruct (String.eqb_spec (JS.toString (user_id user)) "me") as [E|_];
        [destruct (SegmentFacts.toString_not_me _ E)|].
      rewrite Hparse. split; reflexivity.
  - intros id Hme Hown.
    rewrite (GuardFacts.GET_guard_identity _ user) by assumption.
    rewrite (GuardFacts.POST_guard_identity _ user) by assumption.
    apply String.eqb_neq in Hme. rewrite Hme.
    assert (Hown' : String.eqb (JS.toString (user_id user)) id = false)
      by (apply String.eqb_neq; congruence).
    rewrite Hown'. cbn [orb negb andb].
    destruct (role_eqb (user_role user) ADMIN); split; reflexivity.
Qed.

(** Client 7 asks for the books: on the headers of that request the guards
    take [me] for user 7, and the [POST] guard refuses user 8. *)
Lemma guards_behind_middleware_witness :
  let request := Scenario.request "/api/books" "GET" in
  let w := Scenario.world (Scenario.session_of Scenario.client7 (36 * Scenario.hour)) WriteOk in
  exists h,
    fst (Bearer.middleware request w) = Return (Next (Some h)) /\
    UserRoutes.GET_guard h "me" = UserRoutes.Target (JSNumber.Int 7) /\
    UserRoutes.POST_guard h "8"
    = UserRoutes.Refuse 403
        "Vous ne pouvez marquer que vos propres notifications comme lues".
Proof.
  intros request w.
  destruct (guards_behind_middleware request w
              (snd (Bearer.middleware request w))
              (Bearer.forwarded_headers request Scenario.client7))
    as (tok & session & Htok & Hrow & _ & Hsafe).
  - rewrite (surjective_pairing (Bearer.middleware request w)) at 1.
    f_equal; vm_compute; reflexivity.
  - exists (Bearer.forwarded_headers request Scenario.client7).
    split; [vm_compute; reflexivity|].
    vm_compute in Htok. injection Htok as <-.
    vm_compute in Hrow. injection Hrow as <-.
    destruct (Hsafe eq_refl) as [Hown Hother].
    split.
    + apply (Hown "me"%string). left; reflexivity.
    + apply (Hother "8"%string); discriminate.
Defined.

(** X19. Below a user, only administrators get through: when a request for
    [/api/users/<owner>/<sub>] (penalties, logs, notifications, or any other
    sub-path) is forwarded, whatever its method, the user of the session is
    an administrator.  On the forwarded headers the guard of the [GET]
    handlers then refuses no [id]: it targets [parseInt(id)], and for [me]
    the administrator, so its 403 is never answered behind the middleware.
    The guard of the [POST] handler still answers 403 for every [id] but
    [me] and the administrator's own: such a request is forwarded by the
    middleware and refused by the handler.  What depends on the printed id
    is stated for ids that are safe integers. *)
Theorem user_subresources_are_for_administrators (request : Request)
    (w w' : World) (h : gmap string string) (owner sub : string) :
  pathname request = ("/api/users/" ++ owner ++ "/" ++ sub)%string ->
  Bearer.middleware request w = (Return (Next (Some h)), w') ->
  exists sessionToken session,
    Bearer.bearer_token request = Some sessionToken /\
    sessions w !! sessionToken = Some session /\
    let user := session_user session in
    user_role user = ADMIN /\
    (forall id,
        id <> "me"%string ->
        UserRoutes.GET_guard h id = UserRoutes.Target (JSNumber.parseInt id)) /\
    (JSNumber.safe_integer (user_id user) = true ->
     UserRoutes.GET_guard h "me" = UserRoutes.Target (JSNumber.Int (user_id user)) /\
     (forall id,
         id <> "me"%string -> id <> JS.toString (user_id user) ->
         UserRoutes.POST_guard h id
         = UserRoutes.Refuse 403
             "Vous ne pouvez marquer que vos propres notifications comme lues")).
Proof.
  intros Hpath Hrun.
  destruct (HeaderFacts.forwarded_by_session _ _ _ _ Hrun)
    as (tok & session & Htok & Hrow & -> & _ & Hperm).
  exists tok, session. split; [exact Htok|]. split; [exact Hrow|].
  intros user.
  assert (Hadmin : user_role user = ADMIN).
  { destruct (decide (user_role user = ADMIN)) as [E|Hne];
      [exact E | exfalso].
    rewrite Hpath in Hperm.
    apply (UsersTableFacts.users_permission _ _ _ Hne) in Hperm.
    apply (f_equal (JS.occurs "/")) in Hperm.
    clear -Hperm. induction owner as [|c owner IH]; simpl in Hperm.
    - discriminate.
    - destruct (Ascii.eqb c "/"); [discriminate | auto]. }
  destruct (GuardFacts.forwarded_identity request user) as [Hid Hrole].
  assert (Hget : forall id,
             UserRoutes.GET_guard (Bearer.forwarded_headers request user) id
             = UserRoutes.Target
                 (JSNumber.parseInt
                    (if String.eqb id "me" then JS.toString (user_id user)
                     else id))).
  { intros id. rewrite (GuardFacts.GET_guard_identity _ user) by assumption.
    rewrite Hadmin. change (role_eqb ADMIN ADMIN) with true.
    cbn [negb]. rewrite andb_false_r. reflexivity. }
  split; [exact Hadmin|]. split; [|intros Hsafe; split].
  - intros id Hme. rewrite Hget.
    apply String.eqb_neq in Hme. rewrite Hme. reflexivity.
  - rewrite Hget. change (String.eqb "me" "me") with true. cbv iota.
    rewrite (ParseFacts.parseInt_printed _ Hsafe). reflexivity.
  - intros id Hme Hown.
    rewrite (GuardFacts.POST_guard_identity _ user) by assumption.
    apply String.eqb_neq in Hme. rewrite Hme.
    assert (Hown' : String.eqb (JS.toString (user_id user)) id = false)
      by (apply String.eqb_neq; congruence).
    rewrite Hown'. reflexivity.
Qed.

(** An administrator posts to the notifications of user 7: forwarded, then
    refused by the handler. *)
Lemma user_subresources_are_for_administrators_witness :
  let admin := {| user_id := 1; user_role := ADMIN; user_libraryId := None |} in
  let request := Scenario.request "/api/users/7/notifications" "POST" in
  let w := Scenario.world (Scenario.session_of admin (36 * Scenario.hour)) WriteOk in
  exists h,
    fst (Bearer.middleware request w) = Return (Next (Some h)) /\
    UserRoutes.GET_guard h "7" = UserRoutes.Target (JSNumber.Int 7) /\
    UserRoutes.POST_guard h "7"
    = UserRoutes.Refuse 403
        "Vous ne pouvez marquer que vos propres notifications comme lues".
Proof.
  intros admin request w.
  destruct (user_subresources_are_for_administrators request w
              (snd (Bearer.middleware request w))
              (Bearer.forwarded_headers request admin) "7" "notifications")
    as (tok & session & Htok & Hrow & _ & Hget & Hsafe).
  - reflexivity.
  - rewrite (surjective_pairing (Bearer.middleware request w)) at 1.
    f_equal; vm_compute; reflexivity.
  - exists (Bearer.forwarded_headers request admin).
    split; [vm_compute; reflexivity|].
    vm_compute in Htok. injection Htok as <-.
    vm_compute in Hrow. injection Hrow as <-.
    destruct (Hsafe eq_refl) as [_ Hpost].
    split; [rewrite Hget by discriminate; reflexivity
           | apply Hpost; discriminate].
Defined.
